(** * tldrstory indexing module: a shallow embedding of [Index]

    The development follows [src/python/tldrstory/index.py]: the URL
    normaliser [baseurl], the submission filter [accept], the ingestion
    loop and index build of [execute], the scheduler [schedule] and the
    entry point [run].

    Text is held in [string]; a character is one 8-bit code point.  The
    regular expressions of Python's [re] module and the [LIKE] operator of
    SQLite, both used by the source, are given by small executable
    matchers for the constructs that the source relies on. *)

From Stdlib Require Import Bool Arith Lia List ZArith QArith Ascii String.
Import ListNotations.

Local Open Scope string_scope.
Local Open Scope list_scope.

(** ** Strings *)

Module Str.

(** Line feed, the only character that [.] refuses and the only one
    that [$] tolerates after its position. *)
Definition LF : ascii := "010"%char.

(** [s.split(sep, 1)[0]] for a one-character separator: the text before
    the first occurrence of [sep], or all of [s] without one. *)
Fixpoint split_head (sep : ascii) (s : string) : string :=
  match s with
  | EmptyString => EmptyString
  | String c s' =>
      if (c =? sep)%char then EmptyString else String c (split_head sep s')
  end.

(** [s.startswith(p)] *)
Fixpoint startswith (p s : string) : bool :=
  match p with
  | EmptyString => true
  | String c p' =>
      match s with
      | EmptyString => false
      | String d s' => (d =? c)%char && startswith p' s'
      end
  end.

(** [p in s] on strings: [p] occurs in [s] as a contiguous, literal,
    case-sensitive run. *)
Fixpoint contains (p s : string) : bool :=
  startswith p s ||
  match s with
  | EmptyString => false
  | String _ s' => contains p s'
  end.

(** Membership of a character. *)
Fixpoint mem (c : ascii) (s : string) : bool :=
  match s with
  | EmptyString => false
  | String d s' => (d =? c)%char || mem c s'
  end.


(** A text without line feed. *)
Definition clean (s : string) : Prop := mem LF s = false.

(** The character of code 0, which ends a C string. *)
Definition NUL : ascii := "000"%char.

(** A text without NUL. *)
Definition nul_free (s : string) : Prop := mem NUL s = false.

(** [str.lower] on the 8-bit range: the letters A-Z and the accented
    capitals 192-222 (all but the multiplication sign 215) move up
    by 32. *)
Definition lower_char (c : ascii) : ascii :=
  let n := nat_of_ascii c in
  if (((65 <=? n) && (n <=? 90)) ||
      ((192 <=? n) && (n <=? 222) && negb (n =? 215)))%nat
  then ascii_of_nat (n + 32) else c.

Fixpoint lower (s : string) : string :=
  match s with
  | EmptyString => EmptyString
  | String c s' => String (lower_char c) (lower s')
  end.

End Str.

(** ** Regular expressions, as Python's [re] runs them

    The matcher is a backtracking one, like the engine of [re]: it tries
    the alternatives in the pattern's order (an optional part first with
    the part, then without) and hands what is left of the subject to a
    continuation, so the first success is the match that [re] reports. *)

Module Re.

Inductive regex : Type :=
| Eps                          (* the empty pattern *)
| Chr (c : ascii)              (* a literal character *)
| Dot                          (* [.] : any character but line feed *)
| Bol                          (* [^] : the start of the subject *)
| Eol                          (* [$] : the end, or before a final line feed *)
| Cat (r1 r2 : regex)          (* r1 r2 *)
| Alt (r1 r2 : regex)          (* r1|r2 *)
| Opt (r : regex)              (* r? , greedy *)
| Star (r : regex).            (* r* , greedy *)

(** A literal word. *)
Fixpoint lit (w : string) : regex :=
  match w with
  | EmptyString => Eps
  | String c w' => Cat (Chr c) (lit w')
  end.

(** [$] holds at the end of the subject and just before a line feed
    that ends it. *)
Definition at_eol (s : string) : bool :=
  match s with
  | EmptyString => true
  | String c EmptyString => (c =? Str.LF)%char
  | _ => false
  end.

(** The rounds of [r*]: [body] matches [r] once.  A round that takes
    no character ends the repetition; [n] bounds the rounds by the
    length of the subject. *)
Fixpoint star_loop {A : Type}
         (body : bool -> string -> (bool -> string -> option A) -> option A)
         (k : bool -> string -> option A)
         (n : nat) (b : bool) (t : string) {struct n} : option A :=
  match n with
  | O => k b t
  | S n' =>
      match body b t
              (fun b' t' =>
                 if (String.length t' <? String.length t)%nat
                 then star_loop body k n' b' t' else None) with
      | Some x => Some x
      | None => k b t
      end
  end.

(** [rmatch r bos s k]: match [r] at the head of [s]; [bos] tells
    whether the head of [s] is the start of the subject.  [k] receives
    the same two facts about the position after the match. *)
Fixpoint rmatch {A : Type} (r : regex) (bos : bool) (s : string)
         (k : bool -> string -> option A) {struct r} : option A :=
  match r with
  | Eps => k bos s
  | Chr c =>
      match s with
      | String d s' => if (d =? c)%char then k false s' else None
      | EmptyString => None
      end
  | Dot =>
      match s with
      | String d s' => if (d =? Str.LF)%char then None else k false s'
      | EmptyString => None
      end
  | Bol => if bos then k bos s else None
  | Eol => if at_eol s then k bos s else None
  | Cat r1 r2 => rmatch r1 bos s (fun b' s' => rmatch r2 b' s' k)
  | Alt r1 r2 =>
      match rmatch r1 bos s k with
      | Some x => Some x
      | None => rmatch r2 bos s k
      end
  | Opt r1 =>
      match rmatch r1 bos s k with
      | Some x => Some x
      | None => k bos s
      end
  | Star r1 =>
      star_loop (fun b t k' => rmatch r1 b t k') k (String.length s) bos s
  end.

(** One attempt at one position.  The result is the text after the
    match.  With [must_advance] an empty match is refused, which is how
    [re] steps past an empty match it has just reported. *)
Definition match_at (r : regex) (bos : bool) (s : string)
           (must_advance : bool) : option string :=
  rmatch r bos s
    (fun _ s' =>
       if must_advance && (String.length s' =? String.length s)%nat
       then None else Some s').

(** The leftmost match at or after the head of [s]: the text skipped
    before it and the text after it.  [must_advance] bears on the first
    position only. *)
Fixpoint search_from (r : regex) (bos : bool) (s : string)
         (must_advance : bool) : option (string * string) :=
  match match_at r bos s must_advance with
  | Some rest => Some (EmptyString, rest)
  | None =>
      match s with
      | EmptyString => None
      | String c s' =>
          match search_from r false s' false with
          | Some (pre, rest) => Some (String c pre, rest)
          | None => None
          end
      end
  end.

(** [re.search(pattern, s)] as a truth value. *)
Definition search (r : regex) (s : string) : bool :=
  match search_from r true s false with
  | Some _ => true
  | None => false
  end.

(** The loop of [re.sub]: copy the text before each match, put [repl]
    for the match, search again from the end of the match. *)
Fixpoint sub_loop (fuel : nat) (r : regex) (repl : string) (bos : bool)
         (s : string) (must_advance : bool) : string :=
  match fuel with
  | O => s
  | S fuel' =>
      match search_from r bos s must_advance with
      | None => s
      | Some (pre, rest) =>
          let empty :=
            (String.length pre + String.length rest =? String.length s)%nat in
          let bos' := bos && (String.length rest =? String.length s)%nat in
          pre ++ repl ++ sub_loop fuel' r repl bos' rest empty
      end
  end.

(** [re.sub(pattern, repl, s)] for a replacement without group
    references.  Two rounds of the loop always move forward by a
    character, so the fuel is never used up. *)
Definition sub (r : regex) (repl : string) (s : string) : string :=
  sub_loop (2 * String.length s + 3) r repl true s false.

End Re.

(** ** Python results and exceptions *)

Module Py.

Inductive exn : Type :=
| KeyError (key : string)            (* a mapping lacks the key *)
| ValueError (msg : string)
| ProgrammingError (msg : string)    (* sqlite3: the connection is closed *)
| IntegrityError (msg : string).     (* sqlite3: a key constraint fails *)

Inductive result (A : Type) : Type :=
| Ok (a : A)
| Raise (e : exn).

Arguments Ok {A} a.
Arguments Raise {A} e.

(** [mapping[key]] on a mapping whose entry [key] is [field]. *)
Definition getitem {A : Type} (key : string) (field : option A) : result A :=
  match field with
  | Some v => Ok v
  | None => Raise (KeyError key)
  end.

(** [key in mapping] *)
Definition has {A : Type} (field : option A) : bool :=
  match field with
  | Some _ => true
  | None => false
  end.

End Py.

Export Py.

(** ** The relational store *)

Module Sqlite.

(** A classifier score: a finite float, held as the rational it
    denotes. *)
Definition score : Type := Q.

(** The local date and time of a POSIX instant, in microseconds. *)
Inductive datetime : Type :=
| Datetime (posix : Z).

(** [d.strftime(format)] *)
Inductive timetext : Type :=
| Strftime (format : string) (d : datetime).

(** A row of [articles]. *)
Record article : Type := mkArticle {
  Id : string;
  Source : string;
  Published : datetime;
  Title : string;
  Reference : string;
  Entry : timetext
}.

(** A row of the labels table, as the tuple that [execute] builds:
    [(None, submission.id, name) + x]. *)
Record label : Type := mkLabel {
  LKey : option Z;
  LArticle : string;
  LSet : string;
  LValue : string;
  LScore : score
}.

Record database : Type := mkDatabase {
  articles : list article;
  labels : list label;
  pending : nat;          (* rows written since the last commit *)
  closed : bool
}.

Definition empty : database :=
  {| articles := []; labels := []; pending := 0; closed := false |}.

(** SQLite folds the letters A-Z, and nothing else, when [LIKE]
    compares. *)
Definition fold_char (c : ascii) : ascii :=
  let n := nat_of_ascii c in
  if ((65 <=? n) && (n <=? 90))%nat then ascii_of_nat (n + 32) else c.

(** What [LIKE] reads of a value: SQLite hands the operator the text
    as a C string, so the characters from the first NUL on are never
    looked at, in the pattern and in the text alike. *)
Definition c_text (s : string) : string := Str.split_head Str.NUL s.

(** The comparison of [LIKE] without an escape character, on what it
    reads of the pattern and of the text: [%] stands for any run of
    characters, [_] for any one character, every other character for
    itself up to the case of ASCII letters. *)
Fixpoint like_chars (pattern text : string) {struct pattern} : bool :=
  match pattern with
  | EmptyString =>
      match text with
      | EmptyString => true
      | String _ _ => false
      end
  | String p pattern' =>
      if (p =? "%")%char then
        (fix any (t : string) : bool :=
           like_chars pattern' t ||
           match t with
           | EmptyString => false
           | String _ t' => any t'
           end) text
      else
        match text with
        | EmptyString => false
        | String c text' =>
            if (p =? "_")%char then like_chars pattern' text'
            else (fold_char p =? fold_char c)%char && like_chars pattern' text'
        end
  end.

(** [text LIKE pattern]: both operands are read up to their first
    NUL. *)
Definition like (pattern text : string) : bool :=
  like_chars (c_text pattern) (c_text text).

(** A text with its ASCII letters folded. *)
Fixpoint fold_text (s : string) : string :=
  match s with
  | EmptyString => EmptyString
  | String c s' => String (fold_char c) (fold_text s')
  end.

(** [cur.execute("SELECT 1 FROM articles WHERE Id=? OR Reference LIKE ?",
    [id, pattern])]: the rows selected, one [1] for each. *)
Definition select_duplicates (db : database) (id pattern : string)
  : result (list Z) :=
  if closed db
  then Raise (ProgrammingError "Cannot operate on a closed database.")
  else Ok (map (fun _ => 1%Z)
             (filter (fun a => (Id a =? id)%string || like pattern (Reference a))
                (articles db))).

(** [cur.fetchone()]: the first row, or [None]. *)
Definition fetchone {A : Type} (rows : list A) : option A :=
  match rows with
  | [] => None
  | r :: _ => Some r
  end.

(** Modelled from the spec: the store's [execute] for an ad hoc query
    ([sqlite.py] is not among the sources), here for
    ["SELECT Id, Title FROM articles"] followed by [cur.fetchall()]:
    every stored article's id and title, in the order of the table. *)
Definition select_id_title (db : database) : result (list (string * string)) :=
  if closed db
  then Raise (ProgrammingError "Cannot operate on a closed database.")
  else Ok (map (fun a => (Id a, Title a)) (articles db)).

(** Modelled from the spec: [SQLite(path)] opens the store kept at
    [path]; what was stored before stays. *)
Definition connect (db : database) : database :=
  {| articles := articles db; labels := labels db;
     pending := pending db; closed := false |}.

(** Modelled from the spec: [save((article, labels))] persists the
    article and its labels as one unit; the article's id is the primary
    key of [articles], so a second row with a stored id is refused. *)
Definition save (db : database) (a : article) (ls : list label)
  : result database :=
  if closed db
  then Raise (ProgrammingError "Cannot operate on a closed database.")
  else if existsb (fun b => (Id b =? Id a)%string) (articles db)
  then Raise (IntegrityError "UNIQUE constraint failed: articles.Id")
  else Ok {| articles := articles db ++ [a];
             labels := labels db ++ ls;
             pending := S (pending db);
             closed := false |}.

(** Modelled from the spec: [complete()] marks the run's writes
    durable. *)
Definition complete (db : database) : result database :=
  if closed db
  then Raise (ProgrammingError "Cannot operate on a closed database.")
  else Ok {| articles := articles db; labels := labels db;
             pending := 0; closed := false |}.

(** Modelled from the spec: [close()] releases the connection. *)
Definition close (db : database) : database :=
  {| articles := articles db; labels := labels db;
     pending := pending db; closed := true |}.

End Sqlite.

Export Sqlite.

(** ** The content platform and the configuration document *)

Module Praw.

(** A submission, as the platform client hands it over. *)
Record submission : Type := mkSubmission {
  id : string;
  url : string;
  title : string;
  is_self : bool;
  created_utc : Z;
  display_name : string      (* [submission.subreddit.display_name] *)
}.

End Praw.

Module Config.

(** [index["api"]] *)
Record api_config : Type := mkApi {
  subreddit : string;
  queries : list string;
  sort : string;
  time : string;
  ignore : list Re.regex
}.

(** The loaded YAML document.  A top-level key may be absent. *)
Record document : Type := mkDocument {
  name : option string;
  api : option api_config;
  embeddings : option (list (string * string));
  path : option string;
  labels : option (list (string * list string));  (* name, config["values"] *)
  schedule : option string
}.

End Config.

(** ** Effects: the store, the clock and what the run does to the world *)

Module World.

Inductive arg : Type :=
| AStr (s : string)
| ANat (n : nat)
| ATime (t : Z).

Inductive event : Type :=
| Log (level format : string) (args : list arg)
| Search (subreddit query sort time_filter : string)
| DbConnect (path : string)
| DbSave (a : article) (ls : list label)
| DbComplete
| DbQuery (sql : string)
| DbClose
| EmbeddingsNew (params : list (string * string))
| EmbeddingsIndex (documents : list (string * string * option unit))
| EmbeddingsSave (path : string)
| Sleep (duration : Z).

Record world : Type := mkWorld {
  store : database;
  trace : list event;        (* oldest first *)
  ticks : nat;               (* readings of the clock so far *)
  searches : nat             (* searches sent to the platform so far *)
}.

(** A computation: it ends with a value or an exception, and in both
    cases leaves a world behind. *)
Definition M (A : Type) : Type := world -> result A * world.

Definition ret {A : Type} (a : A) : M A := fun w => (Ok a, w).

Definition raise {A : Type} (e : exn) : M A := fun w => (Raise e, w).

Definition bind {A B : Type} (m : M A) (f : A -> M B) : M B :=
  fun w =>
    match m w with
    | (Ok a, w') => f a w'
    | (Raise e, w') => (Raise e, w')
    end.

Definition lift {A : Type} (r : result A) : M A := fun w => (r, w).

Definition emit (e : event) : M unit :=
  fun w => (Ok tt, {| store := store w; trace := trace w ++ [e];
                      ticks := ticks w; searches := searches w |}).

Definition get_store : M database := fun w => (Ok (store w), w).

Definition put_store (db : database) : M unit :=
  fun w => (Ok tt, {| store := db; trace := trace w;
                      ticks := ticks w; searches := searches w |}).

(** One reading of the clock [clock]. *)
Definition read_clock (clock : nat -> Z) : M Z :=
  fun w => (Ok (clock (ticks w)),
            {| store := store w; trace := trace w;
               ticks := S (ticks w); searches := searches w |}).

(** The number of the next search. *)
Definition next_search : M nat :=
  fun w => (Ok (searches w),
            {| store := store w; trace := trace w;
               ticks := ticks w; searches := S (searches w) |}).

(** [for x in xs: body(x)] *)
Fixpoint for_each {A : Type} (xs : list A) (body : A -> M unit) : M unit :=
  match xs with
  | [] => ret tt
  | x :: xs' => bind (body x) (fun _ => for_each xs' body)
  end.

End World.

Export World.

Notation "x <- c1 ;; c2" := (bind c1 (fun x => c2))
  (at level 61, c1 at next level, right associativity).
Notation "c1 ;; c2" := (bind c1 (fun _ => c2))
  (at level 61, right associativity).

(** ** The indexing module *)

Module Index.

Import Re.

(** [r"^http(s)?:\/\/(www.)?"] *)
Definition leading_re : regex :=
  Cat Bol
    (Cat (lit "http")
       (Cat (Opt (Chr "s"))
          (Cat (lit "://")
             (Opt (Cat (lit "www") Dot))))).

(** [r"(index.htm(l)?)$"] *)
Definition index_re : regex :=
  Cat (Cat (lit "index") (Cat Dot (Cat (lit "htm") (Opt (Chr "l"))))) Eol.

(** [r"\/?$"] *)
Definition slash_re : regex :=
  Cat (Opt (Chr "/")) Eol.

(** [Index.baseurl] *)
Definition baseurl (url : string) : string :=
  (* Remove parameters *)
  let url := Str.split_head "?" url in
  (* Remove leading http(s?)://www *)
  let url := Re.sub leading_re "" url in
  (* Remove trailing index.html *)
  let url := Re.sub index_re "" url in
  (* Remove trailing slashes *)
  let url := Re.sub slash_re "" url in
  url.

(** The normalised URLs of the stored articles are pairwise
    distinct. *)
Definition unique_keys (db : database) : Prop :=
  NoDup (map (fun a => baseurl (Reference a)) (articles db)).

(** [Index.accept].  The query may raise; its exception is not caught
    here. *)
Definition accept (database : Sqlite.database) (submission : Praw.submission)
           (ignore : list regex) : result bool :=
  (* Get base url *)
  let baseurl := baseurl (Praw.url submission) in
  (* Check that article doesn't already exist *)
  match select_duplicates database (Praw.id submission)
          ("%" ++ baseurl ++ "%") with
  | Raise e => Raise e
  | Ok rows =>
      Ok (negb (Py.has (fetchone rows))
          && negb (Praw.is_self submission)
          && Str.startswith "http" (Praw.url submission)
          && forallb (fun pattern => negb (Re.search pattern (Praw.url submission)))
               ignore)
  end.

(** The article that [execute] builds for a submission, [now] being
    the time of ingestion. *)
Definition article_of (submission : Praw.submission) (now : Z) : article :=
  mkArticle (Praw.id submission) (Str.lower (Praw.display_name submission))
    (Datetime (Praw.created_utc submission)) (Praw.title submission)
    (Praw.url submission) (Strftime "%Y-%m-%d %H:%M:%S" (Datetime now)).

(** The world after one reading of the clock and the [save] of an
    article and its label rows. *)
Definition saved (w : world) (a : article) (rows : list label) : world :=
  mkWorld
    (mkDatabase (articles (store w) ++ [a]) (labels (store w) ++ rows)
       (S (pending (store w))) false)
    (trace w ++ [DbSave a rows]) (S (ticks w)) (searches w).

(** The store of [w'] holds the articles of [w], in place, and maybe
    more after them. *)
Definition extends (w w' : world) : Prop :=
  exists more, articles (store w') = articles (store w) ++ more.

(** Every label row belongs to a stored article. *)
Definition labels_attached (db : database) : Prop :=
  forall l, In l (labels db) ->
    exists a, In a (articles db) /\ Id a = LArticle l.

Section Collaborators.

(** The platform client: the submissions that the [n]-th search of
    the process returns for a community, a query, a sort order and a
    time window. *)
Variable reddit_search :
  nat -> string -> string -> string -> string -> list Praw.submission.

(** The classifier: the (label, score) pairs for a text and the
    candidate values. *)
Variable classifier : string -> list string -> list (string * score).

(** [croniter(expression, start).get_next(datetime)] *)
Variable croniter_next : string -> Z -> Z.

(** The wall clock: its successive readings, in microseconds. *)
Variable clock : nat -> Z.

(** [Index.embeddings] *)
Definition embeddings (index : Config.document) : M unit :=
  (* Create embeddings model *)
  params <- lift (getitem "embeddings" (Config.embeddings index)) ;;
  emit (EmbeddingsNew params) ;;
  emit (DbQuery "SELECT Id, Title FROM articles") ;;
  database <- get_store ;;
  rows <- lift (select_id_title database) ;;
  (* Create an index for the list of articles *)
  let articles := map (fun row => (fst row, snd row, @None unit)) rows in
  emit (EmbeddingsIndex articles) ;;
  emit (Log "INFO" "Built embedding index over %d stored articles"
          [ANat (List.length articles)]) ;;
  (* Save index *)
  path <- lift (getitem "path" (Config.path index)) ;;
  emit (EmbeddingsSave path).

(** The labels of one submission: for each label set, what the
    classifier returns, each pair extended to a row. *)
Definition classify (submission : Praw.submission)
           (labelsets : list (string * list string)) : list label :=
  flat_map
    (fun set =>
       map (fun x => mkLabel None (Praw.id submission) (fst set) (fst x) (snd x))
         (classifier (Praw.title submission) (snd set)))
    labelsets.

(** The body of the inner loop of [Index.execute]. *)
Definition process (index : Config.document) (api : Config.api_config)
           (submission : Praw.submission) : M unit :=
  (* Parse create date *)
  let date := Datetime (Praw.created_utc submission) in
  (* Only process recent external link posts *)
  database <- get_store ;;
  accepted <- lift (accept database submission (Config.ignore api)) ;;
  if accepted : bool then
    (* Build article content and save *)
    now <- read_clock clock ;;
    let article :=
      mkArticle (Praw.id submission)
                (Str.lower (Praw.display_name submission))
                date
                (Praw.title submission)
                (Praw.url submission)
                (Strftime "%Y-%m-%d %H:%M:%S" (Datetime now)) in
    (* Build list of classification labels for text *)
    labelsets <- lift (getitem "labels" (Config.labels index)) ;;
    let labels := classify submission labelsets in
    (* Save article *)
    database' <- lift (save database article labels) ;;
    put_store database' ;;
    emit (DbSave article labels)
  else ret tt.

(** The worlds that the inner loop can be in: it starts on an open,
    empty store and runs its body on one submission after another,
    each taken from those that meet [P]. *)
Inductive reachable (P : Praw.submission -> Prop)
          (index : Config.document) (api : Config.api_config)
  : world -> Prop :=
| reach_start (w : world) :
    articles (store w) = [] -> closed (store w) = false ->
    reachable P index api w
| reach_step (w w' : world) (submission : Praw.submission)
             (r : result unit) :
    reachable P index api w ->
    P submission ->
    process index api submission w = (r, w') ->
    reachable P index api w'.

(** The body of the outer loop of [Index.execute]. *)
Definition run_query (index : Config.document) (api : Config.api_config)
           (query : string) : M unit :=
  (* Filter for safe links *)
  let query := (query ++ " self:0 nsfw:0")%string in
  n <- next_search ;;
  emit (Search (Config.subreddit api) query (Config.sort api) (Config.time api)) ;;
  for_each
    (reddit_search n (Config.subreddit api) query (Config.sort api) (Config.time api))
    (process index api).

(** [Index.execute] *)
Definition execute (index : Config.document) : M unit :=
  name <- lift (getitem "name" (Config.name index)) ;;
  emit (Log "INFO" "Refreshing index: %s" [AStr name]) ;;
  (* Output database *)
  path <- lift (getitem "path" (Config.path index)) ;;
  database <- get_store ;;
  put_store (connect database) ;;
  emit (DbConnect path) ;;
  (* Reddit API configuration *)
  api <- lift (getitem "api" (Config.api index)) ;;
  (* Execute each query *)
  for_each (Config.queries api) (run_query index api) ;;
  (* Complete processing *)
  database <- get_store ;;
  database' <- lift (complete database) ;;
  put_store database' ;;
  emit DbComplete ;;
  (* Build embeddings index *)
  embeddings index ;;
  (* Close database *)
  database <- get_store ;;
  put_store (close database) ;;
  emit DbClose ;;
  emit (Log "INFO" "Indexing complete" []).

(** [time.sleep(duration)] *)
Definition sleep (duration : Z) : M unit :=
  if (duration <? 0)%Z
  then raise (ValueError "sleep length must be non-negative")
  else emit (Sleep duration).

(** One round of the loop of [Index.schedule]. *)
Definition schedule_round (index : Config.document) : M unit :=
  (* Schedule using localtime *)
  expression <- lift (getitem "schedule" (Config.schedule index)) ;;
  now <- read_clock clock ;;
  let schedule := croniter_next expression now in
  emit (Log "INFO" "Next run scheduled for %s" [ATime schedule]) ;;
  current <- read_clock clock ;;
  sleep (schedule - current)%Z ;;
  execute index.

(** The first [rounds] rounds of [while True] in [Index.schedule]. *)
Fixpoint schedule_loop (rounds : nat) (index : Config.document) : M unit :=
  match rounds with
  | O => ret tt
  | S rounds' => schedule_round index ;; schedule_loop rounds' index
  end.

(** [Index.schedule], its loop cut after [rounds] rounds. *)
Definition schedule (rounds : nat) (index : Config.document) : M unit :=
  name <- lift (getitem "name" (Config.name index)) ;;
  expression <- lift (getitem "schedule" (Config.schedule index)) ;;
  emit (Log "INFO" "Indexing scheduler enabled for %s using schedule %s"
          [AStr name; AStr expression]) ;;
  schedule_loop rounds index.


End Collaborators.

End Index.

(** ** Sample inputs *)

Module Sample.

(** A link post in the community [Python]. *)
Definition link (id url : string) : Praw.submission :=
  Praw.mkSubmission id url "A story" false 1600000000000000 "Python".

(** A stored article with id [id] and reference [reference]. *)
Definition row (id reference : string) : article :=
  mkArticle id "python" (Datetime 1600000000000000) "A story" reference
    (Strftime "%Y-%m-%d %H:%M:%S" (Datetime 1600000000000000)).

(** An open store that holds [rows]. *)
Definition store_of (rows : list article) : database :=
  mkDatabase rows [] 0 false.

(** A store whose connection is closed. *)
Definition closed_store : database :=
  mkDatabase [row "x1" "http://example.com/a"] [] 0 true.

(** A classifier that gives every candidate value the score 1/2, in
    the order of the candidates. *)
Definition classifier (text : string) (values : list string)
  : list (string * score) :=
  map (fun v => (v, 1 # 2)) values.

(** A clock that moves by one second between two readings. *)
Definition clock (n : nat) : Z :=
  (1700000000000000 + Z.of_nat n * 1000000)%Z.

(** A platform that answers every search with the same three link
    posts; the first two differ in protocol, [www], document name,
    query and final slash only. *)
Definition reddit_search (n : nat) (subreddit query sort time : string)
  : list Praw.submission :=
  [link "x1" "https://www.example.com/a/index.html?x=1";
   link "x2" "http://example.com/a/";
   link "x3" "http://example.org/b"].

Definition api : Config.api_config :=
  Config.mkApi "python" ["rocq"] "new" "week" [Re.lit "reddit.com"].

(** A complete document without a schedule. *)
Definition document : Config.document :=
  Config.mkDocument (Some "tldr") (Some api) (Some [("path", "model")])
    (Some "/tmp/index") (Some [("topic", ["science"; "sport"])]) None.

(** The world before the first run: an empty store, nothing done. *)
Definition world0 : world := mkWorld Sqlite.empty [] 0 0.

(** A link post whose URL ends in a line feed. *)
Definition newline_link (id : string) : Praw.submission :=
  link id ("http://a.com/index.html" ++ String Str.LF "").

(** The world after the loop body has run on two such posts. *)
Definition world_newline : world :=
  snd (Index.process classifier clock document api (newline_link "x2")
         (snd (Index.process classifier clock document api (newline_link "x1")
                 world0))).

(** A schedule that fires at every full minute: the first full minute
    strictly after [start], whatever the expression. *)
Definition cron_minutely (expression : string) (start : Z) : Z :=
  ((start / 60000000 + 1) * 60000000)%Z.

(** A clock that reads 59.9 s first and moves by 0.2 s between two
    readings. *)
Definition clock_late (n : nat) : Z :=
  (59900000 + Z.of_nat n * 200000)%Z.

(** A complete document with a schedule. *)
Definition scheduled_document : Config.document :=
  Config.mkDocument (Some "tldr") (Some api) (Some [("path", "model")])
    (Some "/tmp/index") (Some [("topic", ["science"; "sport"])])
    (Some "* * * * *").


(** A document without [labels]. *)
Definition document_without_labels : Config.document :=
  Config.mkDocument (Some "tldr") (Some api) (Some [("path", "model")])
    (Some "/tmp/index") None None.

(** A document without [embeddings]. *)
Definition document_without_embeddings : Config.document :=
  Config.mkDocument (Some "tldr") (Some api) None
    (Some "/tmp/index") (Some [("topic", ["science"; "sport"])]) None.

(** The world after the loop body has run on two posts of the sample
    platform. *)
Definition world_two : world :=
  snd (Index.process classifier clock document api
         (link "x3" "http://example.org/b")
         (snd (Index.process classifier clock document api
                 (link "x1" "https://www.example.com/a/index.html?x=1")
                 world0))).

(** The world after one run on the sample platform. *)
Definition world_after_run : world :=
  snd (Index.execute reddit_search classifier clock document world0).

(** A clock that reads 59.0 s and 59.1 s, and from then on 61 s and
    one second more at each reading: between its second and its third
    reading a full minute passes by. *)
Definition clock_busy (n : nat) : Z :=
  match n with
  | 0%nat => 59000000
  | 1%nat => 59100000
  | _ => 61000000 + Z.of_nat n * 1000000
  end%Z.

End Sample.

(** * Properties *)

(** ** The filter *)

Section Filter.

Lemma fetchone_filter {A B : Type} (g : A -> B) (f : A -> bool) (l : list A) :
  Py.has (fetchone (map g (filter f l))) = existsb f l.
Proof.
  induction l as [|a l IH]; simpl; [reflexivity|].
  destruct (f a); simpl; [reflexivity|exact IH].
Qed.

(** On an open store the filter returns the conjunction of its four
    tests. *)
Lemma accept_open (db : database) (sub : Praw.submission)
      (ignore : list Re.regex) :
  closed db = false ->
  Index.accept db sub ignore =
  Ok (negb (existsb
              (fun a => (Id a =? Praw.id sub)%string
                        || like ("%" ++ Index.baseurl (Praw.url sub) ++ "%")
                             (Reference a))
              (articles db))
      && negb (Praw.is_self sub)
      && Str.startswith "http" (Praw.url sub)
      && forallb (fun p => negb (Re.search p (Praw.url sub))) ignore).
Proof.
  intros Hopen. unfold Index.accept, select_duplicates.
  rewrite Hopen, fetchone_filter. reflexivity.
Qed.

(** On a closed store the query raises, and so does the filter. *)
Lemma accept_closed (db : database) (sub : Praw.submission)
      (ignore : list Re.regex) :
  closed db = true ->
  Index.accept db sub ignore =
  Raise (ProgrammingError "Cannot operate on a closed database.").
Proof.
  intros Hclosed. unfold Index.accept, select_duplicates.
  rewrite Hclosed. reflexivity.
Qed.

End Filter.

(** C1, the code at the failing input: the store holds one article,
    with the Reference [http://example.com/axb]; the submission has
    another id and the URL [http://example.com/a_b], whose normalised
    form [example.com/a_b] occurs in no stored Reference; it is a link
    post, its URL starts with [http] and nothing is ignored.  The four
    conditions of the claim hold and [accept] returns false: the [_] of
    the URL reaches the [LIKE] pattern unescaped and stands for any
    character. *)
Theorem accept_rejects_unseen_url :
  let db := Sample.store_of [Sample.row "x1" "http://example.com/axb"] in
  let sub := Sample.link "x2" "http://example.com/a_b" in
  closed db = false /\
  Index.baseurl (Praw.url sub) = "example.com/a_b" /\
  (forall a, In a (articles db) -> Id a <> Praw.id sub) /\
  (forall a, In a (articles db) ->
     Str.contains (Index.baseurl (Praw.url sub)) (Reference a) = false) /\
  Praw.is_self sub = false /\
  Str.startswith "http" (Praw.url sub) = true /\
  (forall p, In p (@nil Re.regex) -> Re.search p (Praw.url sub) = false) /\
  Index.accept db sub [] = Ok false.
Proof.
  cbv zeta. split; [reflexivity|]. split; [vm_compute; reflexivity|].
  repeat split.
  - intros a [<-|[]]. discriminate.
  - intros a [<-|[]]. vm_compute. reflexivity.
  - intros p [].
Qed.

(** The same defect in the other direction: what follows a NUL in a
    stored Reference is not read by [LIKE], so a submission whose
    normalised URL does occur in a stored Reference, after a NUL, is
    accepted. *)
Lemma accept_reads_reference_to_nul :
  let db :=
    Sample.store_of
      [Sample.row "x1" ("http://www" ++ String Str.NUL "example.com/a")] in
  let sub := Sample.link "x2" "http://example.com/a" in
  (exists a, In a (articles db) /\
     Str.contains (Index.baseurl (Praw.url sub)) (Reference a) = true) /\
  Index.accept db sub [] = Ok true.
Proof.
  cbv zeta. split; [|vm_compute; reflexivity].
  eexists. split; [left; reflexivity|vm_compute; reflexivity].
Qed.

(** C7: when the duplicate query fails, [accept] fails with the same
    exception and returns no truth value. *)
Theorem accept_propagates_lookup_failure (db : database)
        (sub : Praw.submission) (ignore : list Re.regex) (e : exn) :
  select_duplicates db (Praw.id sub)
    ("%" ++ Index.baseurl (Praw.url sub) ++ "%") = Raise e ->
  Index.accept db sub ignore = Raise e /\
  forall b : bool, Index.accept db sub ignore <> Ok b.
Proof.
  intros Hfail. unfold Index.accept. rewrite Hfail.
  split; [reflexivity|]. intros b. discriminate.
Qed.

Lemma accept_propagates_lookup_failure_witness :
  Index.accept Sample.closed_store (Sample.link "x2" "http://example.org/b") []
  = Raise (ProgrammingError "Cannot operate on a closed database.") /\
  forall b : bool,
    Index.accept Sample.closed_store (Sample.link "x2" "http://example.org/b") []
    <> Ok b.
Proof.
  apply (accept_propagates_lookup_failure Sample.closed_store
           (Sample.link "x2" "http://example.org/b") []
           (ProgrammingError "Cannot operate on a closed database.")).
  reflexivity.
Defined.

(** C9: the duplicate test is a [LIKE] match, not a literal search.
    There is a submission with [_] in its normalised URL, one with [%],
    and one whose URL differs from a stored Reference in the case of
    ASCII letters only, each rejected by [accept] although no stored
    article has its id, no stored Reference contains its normalised URL
    literally, it is a link post, its URL starts with [http] and nothing
    is ignored. *)
Theorem accept_like_wildcards :
  (exists db sub,
     Str.mem "_" (Index.baseurl (Praw.url sub)) = true /\
     (forall a, In a (articles db) ->
        Id a <> Praw.id sub /\
        Str.contains (Index.baseurl (Praw.url sub)) (Reference a) = false) /\
     Praw.is_self sub = false /\
     Str.startswith "http" (Praw.url sub) = true /\
     Index.accept db sub [] = Ok false) /\
  (exists db sub,
     Str.mem "%" (Index.baseurl (Praw.url sub)) = true /\
     (forall a, In a (articles db) ->
        Id a <> Praw.id sub /\
        Str.contains (Index.baseurl (Praw.url sub)) (Reference a) = false) /\
     Praw.is_self sub = false /\
     Str.startswith "http" (Praw.url sub) = true /\
     Index.accept db sub [] = Ok false) /\
  (exists db sub,
     (exists a, In a (articles db) /\
        Reference a <> Praw.url sub /\
        fold_text (Reference a) = fold_text (Praw.url sub)) /\
     (forall a, In a (articles db) ->
        Id a <> Praw.id sub /\
        Str.contains (Index.baseurl (Praw.url sub)) (Reference a) = false) /\
     Praw.is_self sub = false /\
     Str.startswith "http" (Praw.url sub) = true /\
     Index.accept db sub [] = Ok false).
Proof.
  split; [|split].
  - exists (Sample.store_of [Sample.row "x1" "http://example.com/axb"]),
           (Sample.link "x2" "http://example.com/a_b").
    split; [vm_compute; reflexivity|].
    split; [|repeat split].
    intros a [<-|[]]. split; [discriminate|vm_compute; reflexivity].
  - exists (Sample.store_of [Sample.row "x1" "http://example.com/50-for-100"]),
           (Sample.link "x2" "http://example.com/50%100").
    split; [vm_compute; reflexivity|].
    split; [|repeat split].
    intros a [<-|[]]. split; [discriminate|vm_compute; reflexivity].
  - exists (Sample.store_of [Sample.row "x1" "http://example.com/story"]),
           (Sample.link "x2" "http://Example.com/Story").
    split.
    { exists (Sample.row "x1" "http://example.com/story").
      split; [left; reflexivity|]. split; [discriminate|reflexivity]. }
    split; [|repeat split].
    intros a [<-|[]]. split; [discriminate|vm_compute; reflexivity].
Qed.

(** ** The normaliser *)

(** C10, as the code has it: the [.] after [www] takes any character
    but a line feed, and a [?] never reaches it because the query is cut
    first; for every other character [c] the URL
    [http://www] + [c] + [example.com/a] normalises to [example.com/a],
    the key of [http://example.com/a]. *)
Theorem baseurl_www_any (c : ascii) :
  c <> "?"%char -> c <> Str.LF ->
  Index.baseurl ("http://www" ++ String c "example.com/a") = "example.com/a" /\
  Index.baseurl "http://wwwzexample.com/a" = Index.baseurl "http://example.com/a".
Proof.
  intros Hq Hlf. split; [|vm_compute; reflexivity].
  destruct c as [b0 b1 b2 b3 b4 b5 b6 b7].
  destruct b0, b1, b2, b3, b4, b5, b6, b7;
    try (vm_compute; reflexivity);
    exfalso; first [apply Hq; reflexivity | apply Hlf; reflexivity].
Qed.

Lemma baseurl_www_any_witness :
  Index.baseurl ("http://www" ++ String "z" "example.com/a") = "example.com/a" /\
  Index.baseurl "http://wwwzexample.com/a" = Index.baseurl "http://example.com/a".
Proof.
  apply (baseurl_www_any "z"); discriminate.
Defined.

(** C10, as stated for every character, fails at [?] and at the line
    feed. *)
Lemma baseurl_www_any_counterexample :
  Index.baseurl ("http://www" ++ String "?" "example.com/a") = "www" /\
  Index.baseurl ("http://www" ++ String Str.LF "example.com/a")
  = ("www" ++ String Str.LF "example.com/a")%string.
Proof.
  split; vm_compute; reflexivity.
Qed.

(** ** Facts on strings *)

Module StrFacts.

Local Open Scope string_scope.

Lemma append_nil_r (s : string) : s ++ "" = s.
Proof. induction s as [|c s IH]; simpl; [reflexivity|now rewrite IH]. Qed.

Lemma append_assoc (a b c : string) : (a ++ b) ++ c = a ++ (b ++ c).
Proof. induction a as [|x a IH]; simpl; [reflexivity|now rewrite IH]. Qed.

Lemma length_append (a b : string) :
  String.length (a ++ b) = (String.length a + String.length b)%nat.
Proof. induction a as [|x a IH]; simpl; [reflexivity|now rewrite IH]. Qed.

Lemma length_zero (s : string) : String.length s = 0%nat -> s = "".
Proof. destruct s; simpl; [reflexivity|discriminate]. Qed.

Lemma append_eq_nil (a b : string) : a ++ b = "" -> a = "" /\ b = "".
Proof. destruct a; simpl; [auto|discriminate]. Qed.

Lemma mem_append (c : ascii) (a b : string) :
  Str.mem c (a ++ b) = Str.mem c a || Str.mem c b.
Proof.
  induction a as [|x a IH]; simpl; [reflexivity|].
  rewrite IH. now rewrite orb_assoc.
Qed.

Lemma mem_append_false (c : ascii) (a b : string) :
  Str.mem c (a ++ b) = false -> Str.mem c a = false /\ Str.mem c b = false.
Proof. rewrite mem_append. apply orb_false_iff. Qed.

(** The head cut by [split_head] is a prefix. *)
Lemma split_head_prefix (c : ascii) (s : string) :
  exists post, s = Str.split_head c s ++ post.
Proof.
  induction s as [|x s [post IH]]; simpl.
  - exists "". reflexivity.
  - destruct (x =? c)%char.
    + exists (String x s). reflexivity.
    + exists post. simpl. now rewrite <- IH.
Qed.

(** Without the separator nothing is cut. *)
Lemma split_head_none (c : ascii) (s : string) :
  Str.mem c s = false -> Str.split_head c s = s.
Proof.
  induction s as [|x s IH]; simpl; [reflexivity|].
  intros H. apply orb_false_iff in H. destruct H as [Hx Hs].
  rewrite Hx. now rewrite IH.
Qed.


End StrFacts.

(** ** Facts on the matcher *)

Module ReFacts.

Import Re StrFacts.
Local Open Scope string_scope.

Lemma at_eol_clean (s : string) : at_eol s = true -> Str.clean s -> s = "".
Proof.
  unfold Str.clean.
  destruct s as [|c [|d s]]; simpl; intros He Hc; try reflexivity;
    try discriminate.
  rewrite He in Hc. discriminate.
Qed.

Lemma star_loop_inv {A : Type}
      (body : bool -> string -> (bool -> string -> option A) -> option A)
      (k : bool -> string -> option A) :
  (forall b s k' x, body b s k' = Some x ->
     exists b' m s', s = m ++ s' /\ k' b' s' = Some x) ->
  forall n b t x, star_loop body k n b t = Some x ->
    exists b' m s', t = m ++ s' /\ k b' s' = Some x.
Proof.
  intros Hbody. induction n as [|n IH]; simpl; intros b t x H.
  - exists b, "", t. auto.
  - destruct (body b t _) as [y|] eqn:E.
    + injection H as ->.
      apply Hbody in E. destruct E as (b1 & m1 & s1 & -> & E).
      destruct (String.length s1 <? String.length (m1 ++ s1))%nat;
        [|discriminate].
      apply IH in E. destruct E as (b2 & m2 & s2 & -> & E).
      exists b2, (m1 ++ m2), s2. split; [now rewrite append_assoc|exact E].
    + exists b, "", t. auto.
Qed.

(** Whatever [rmatch] returns comes from its continuation, called on a
    suffix of the subject. *)
Lemma rmatch_inv {A : Type} (r : regex) :
  forall b s (k : bool -> string -> option A) x,
    rmatch r b s k = Some x ->
    exists b' m s', s = m ++ s' /\ k b' s' = Some x.
Proof.
  induction r as [ |c| | | |r1 IH1 r2 IH2|r1 IH1 r2 IH2|r1 IH1|r1 IH1];
    intros b s k x H; simpl in H.
  - exists b, "", s. auto.
  - destruct s as [|d s]; [discriminate|].
    destruct (d =? c)%char; [|discriminate].
    exists false, (String d ""), s. auto.
  - destruct s as [|d s]; [discriminate|].
    destruct (d =? Str.LF)%char; [discriminate|].
    exists false, (String d ""), s. auto.
  - destruct b; [|discriminate]. exists true, "", s. auto.
  - destruct (at_eol s); [|discriminate]. exists b, "", s. auto.
  - apply IH1 in H. destruct H as (b1 & m1 & s1 & -> & H).
    apply IH2 in H. destruct H as (b2 & m2 & s2 & -> & H).
    exists b2, (m1 ++ m2), s2. split; [now rewrite append_assoc|exact H].
  - destruct (rmatch r1 b s k) as [y|] eqn:E.
    + injection H as ->. now apply IH1 in E.
    + now apply IH2 in H.
  - destruct (rmatch r1 b s k) as [y|] eqn:E.
    + injection H as ->. now apply IH1 in E.
    + exists b, "", s. auto.
  - revert H. apply star_loop_inv. intros b0 s0 k' x0. apply IH1.
Qed.

(** A match splits the subject into the matched text and the rest;
    under [must_advance] the matched text is not empty. *)
Lemma match_at_inv (r : regex) (b : bool) (s : string) (ma : bool)
      (rest : string) :
  match_at r b s ma = Some rest ->
  exists m, s = m ++ rest /\ (ma = true -> m <> "").
Proof.
  unfold match_at. intros H. apply rmatch_inv in H.
  destruct H as (b' & m & s' & -> & H).
  destruct (ma && (String.length s' =? String.length (m ++ s'))%nat) eqn:E;
    [discriminate|].
  injection H as ->. exists m. split; [reflexivity|].
  intros ->. simpl in E. apply Nat.eqb_neq in E.
  intros ->. apply E. reflexivity.
Qed.

Lemma search_from_inv (r : regex) (s : string) :
  forall b ma pre rest,
    search_from r b s ma = Some (pre, rest) ->
    exists m, s = pre ++ m ++ rest /\ (ma = true -> pre = "" -> m <> "").
Proof.
  induction s as [|c s IH]; intros b ma pre rest H; simpl in H.
  - destruct (match_at r b "" ma) as [y|] eqn:E; [|discriminate].
    injection H as <- <-. apply match_at_inv in E.
    destruct E as (m & E & Hm). exists m. auto.
  - destruct (match_at r b (String c s) ma) as [y|] eqn:E.
    + injection H as <- <-. apply match_at_inv in E.
      destruct E as (m & E & Hm). exists m. auto.
    + destruct (search_from r false s false) as [[p q]|] eqn:F;
        [|discriminate].
      injection H as <- <-. apply IH in F. destruct F as (m & -> & _).
      exists m. split; [reflexivity|]. intros _ Hp. discriminate.
Qed.

(** *** Patterns that end in [$] *)

Lemma match_at_eol (r : regex) (b : bool) (s : string) (ma : bool)
      (rest : string) :
  match_at (Cat r Eol) b s ma = Some rest -> at_eol rest = true.
Proof.
  unfold match_at. simpl. intros H. apply rmatch_inv in H.
  destruct H as (b' & m & s' & _ & H).
  destruct (at_eol s') eqn:E; [|discriminate].
  destruct (ma && _); [discriminate|]. now injection H as <-.
Qed.

Lemma search_from_eol (r : regex) (s : string) :
  forall b ma pre rest,
    search_from (Cat r Eol) b s ma = Some (pre, rest) -> at_eol rest = true.
Proof.
  induction s as [|c s IH]; intros b ma pre rest H; simpl in H.
  - destruct (match_at (Cat r Eol) b "" ma) as [y|] eqn:E; [|discriminate].
    injection H as <- <-. now apply match_at_eol in E.
  - destruct (match_at (Cat r Eol) b (String c s) ma) as [y|] eqn:E.
    + injection H as <- <-. now apply match_at_eol in E.
    + destruct (search_from (Cat r Eol) false s false) as [[p q]|] eqn:F;
        [|discriminate].
      injection H as <- <-. now apply IH in F.
Qed.

(** On a text without line feed, deleting the matches of a pattern
    that ends in [$] leaves a prefix of the text. *)
Lemma sub_loop_eol_prefix (r : regex) (fuel : nat) :
  forall b s ma, Str.clean s ->
    exists post, s = sub_loop fuel (Cat r Eol) "" b s ma ++ post.
Proof.
  induction fuel as [|fuel IH]; intros b s ma Hs; simpl.
  - exists "". now rewrite append_nil_r.
  - destruct (search_from (Cat r Eol) b s ma) as [[pre rest]|] eqn:E.
    + pose proof (search_from_eol _ _ _ _ _ _ E) as Heol.
      apply search_from_inv in E. destruct E as (m & -> & _).
      unfold Str.clean in Hs.
      apply mem_append_false in Hs. destruct Hs as [_ Hs].
      apply mem_append_false in Hs. destruct Hs as [_ Hs].
      apply at_eol_clean in Heol; [|exact Hs]. subst rest.
      destruct (IH (b && (String.length "" =? String.length (pre ++ m ++ ""))%nat)
                   "" (String.length pre + String.length "" =?
                       String.length (pre ++ m ++ ""))%nat eq_refl)
        as [post Hpost].
      symmetry in Hpost. apply append_eq_nil in Hpost.
      destruct Hpost as [-> _].
      exists m. now rewrite !append_nil_r.
    + exists "". now rewrite append_nil_r.
Qed.

(** *** Patterns that start with [^] *)

Lemma match_at_bol_later (r : regex) (s : string) (ma : bool) :
  match_at (Cat Bol r) false s ma = None.
Proof. reflexivity. Qed.

Lemma search_from_bol_later (r : regex) (s : string) :
  forall ma, search_from (Cat Bol r) false s ma = None.
Proof.
  induction s as [|c s IH]; intros ma; simpl.
  - reflexivity.
  - now rewrite IH.
Qed.

Lemma search_from_bol (r : regex) (b : bool) (s : string) (ma : bool) :
  search_from (Cat Bol r) b s ma =
  match match_at (Cat Bol r) b s ma with
  | Some rest => Some ("", rest)
  | None => None
  end.
Proof.
  destruct s as [|c s]; simpl.
  - reflexivity.
  - destruct (match_at (Cat Bol r) b (String c s) ma); [reflexivity|].
    now rewrite search_from_bol_later.
Qed.

(** Deleting the matches of a pattern that starts with [^] leaves a
    suffix of the text. *)
Lemma sub_loop_bol_suffix (r : regex) (fuel : nat) :
  forall b s ma,
    exists pre, s = pre ++ sub_loop fuel (Cat Bol r) "" b s ma.
Proof.
  induction fuel as [|fuel IH]; intros b s ma; simpl.
  - exists "". reflexivity.
  - rewrite search_from_bol.
    destruct (match_at (Cat Bol r) b s ma) as [rest|] eqn:E.
    + apply match_at_inv in E. destruct E as (m & -> & _). simpl.
      match goal with
      | |- context [sub_loop fuel ?r0 ?e0 ?b0 ?s0 ?m0] =>
          destruct (IH b0 s0 m0) as [pre Hpre]
      end.
      exists (m ++ pre). rewrite append_assoc. now rewrite <- Hpre.
    + exists "". reflexivity.
Qed.

(** *** The fuel of [sub] *)

(** Once the fuel covers two rounds for each character left, more
    fuel changes nothing: [sub] never stops for lack of it. *)
Lemma sub_loop_fuel (r : regex) (repl : string) (f1 : nat) :
  forall (f2 : nat) (b : bool) (s : string) (ma : bool),
    (2 * String.length s + (if ma then 1 else 2) <= f1)%nat ->
    (2 * String.length s + (if ma then 1 else 2) <= f2)%nat ->
    sub_loop f1 r repl b s ma = sub_loop f2 r repl b s ma.
Proof.
  induction f1 as [|f1 IH]; intros f2 b s ma H1 H2.
  - destruct ma; lia.
  - destruct f2 as [|f2]; [destruct ma; lia|]. simpl.
    destruct (search_from r b s ma) as [[pre rest]|] eqn:E; [|reflexivity].
    apply search_from_inv in E. destruct E as (m & -> & Hm).
    rewrite !length_append in *.
    assert (Hlen : m <> "" -> (1 <= String.length m)%nat).
    { destruct m; simpl; [congruence|lia]. }
    do 2 f_equal. apply IH.
    + destruct (String.length pre + String.length rest =?
                String.length pre + (String.length m + String.length rest))%nat
        eqn:Q.
      * apply Nat.eqb_eq in Q. destruct ma; [|lia].
        destruct pre; simpl in *; [|lia].
        specialize (Hlen (Hm eq_refl eq_refl)). lia.
      * apply Nat.eqb_neq in Q. destruct ma; lia.
    + destruct (String.length pre + String.length rest =?
                String.length pre + (String.length m + String.length rest))%nat
        eqn:Q.
      * apply Nat.eqb_eq in Q. destruct ma; [|lia].
        destruct pre; simpl in *; [|lia].
        specialize (Hlen (Hm eq_refl eq_refl)). lia.
      * apply Nat.eqb_neq in Q. destruct ma; lia.
Qed.

Lemma sub_fuel (r : regex) (repl s : string) (fuel : nat) :
  (2 * String.length s + 2 <= fuel)%nat ->
  sub r repl s = sub_loop fuel r repl true s false.
Proof.
  intros H. unfold sub. apply sub_loop_fuel; lia.
Qed.

End ReFacts.

(** ** Facts on the normaliser and on [LIKE] *)

Module KeyFacts.

Import Re StrFacts ReFacts.
Local Open Scope string_scope.

(** The normalised form of a URL without line feed is a contiguous
    part of the URL. *)
Lemma baseurl_infix (u : string) :
  Str.clean u -> exists pre post, u = pre ++ Index.baseurl u ++ post.
Proof.
  intros Hu. unfold Index.baseurl, sub.
  destruct (split_head_prefix "?" u) as [post0 H0].
  remember (Str.split_head "?" u) as h eqn:Eh. clear Eh.
  assert (Hh : Str.clean h).
  { unfold Str.clean in *. rewrite H0 in Hu.
    now apply mem_append_false in Hu. }
  destruct (sub_loop_bol_suffix
              (Cat (lit "http")
                 (Cat (Opt (Chr "s"))
                    (Cat (lit "://") (Opt (Cat (lit "www") Dot)))))
              (2 * String.length h + 3) true h false) as [pre1 H1].
  fold Index.leading_re in H1.
  remember (sub_loop (2 * String.length h + 3) Index.leading_re "" true h false)
    as s1 eqn:E1. clear E1.
  assert (Hs1 : Str.clean s1).
  { unfold Str.clean in *. rewrite H1 in Hh.
    now apply mem_append_false in Hh. }
  destruct (sub_loop_eol_prefix
              (Cat (lit "index") (Cat Dot (Cat (lit "htm") (Opt (Chr "l")))))
              (2 * String.length s1 + 3) true s1 false Hs1) as [post2 H2].
  fold Index.index_re in H2.
  remember (sub_loop (2 * String.length s1 + 3) Index.index_re "" true s1 false)
    as s2 eqn:E2. clear E2.
  assert (Hs2 : Str.clean s2).
  { unfold Str.clean in *. rewrite H2 in Hs1.
    now apply mem_append_false in Hs1. }
  destruct (sub_loop_eol_prefix (Opt (Chr "/"))
              (2 * String.length s2 + 3) true s2 false Hs2) as [post3 H3].
  fold Index.slash_re in H3.
  remember (sub_loop (2 * String.length s2 + 3) Index.slash_re "" true s2 false)
    as s3 eqn:E3. clear E3.
  exists pre1, (post3 ++ post2 ++ post0).
  rewrite H0 at 1. rewrite H1 at 1. rewrite H2 at 1. rewrite H3 at 1.
  now rewrite !append_assoc.
Qed.

(** *** [LIKE] *)

(** A value without NUL is read whole. *)
Lemma c_text_nul_free (s : string) : Str.nul_free s -> c_text s = s.
Proof. apply split_head_none. Qed.

Lemma like_percent (p t : string) :
  like_chars (String "%" p) t =
  like_chars p t || match t with
                    | EmptyString => false
                    | String _ t' => like_chars (String "%" p) t'
                    end.
Proof. destruct t; reflexivity. Qed.

Lemma like_percent_skip (p t pre : string) :
  like_chars p t = true -> like_chars (String "%" p) (pre ++ t) = true.
Proof.
  intros H. induction pre as [|c pre IH].
  - simpl append. rewrite like_percent, H. reflexivity.
  - simpl append. rewrite like_percent, IH. apply orb_true_r.
Qed.

Lemma like_percent_all (t : string) : like_chars "%" t = true.
Proof.
  induction t as [|c t IH].
  - reflexivity.
  - rewrite like_percent, IH. apply orb_true_r.
Qed.

(** A pattern taken as a text matches itself, whatever follows. *)
Lemma like_self (b post : string) :
  like_chars (b ++ "%") (b ++ post) = true.
Proof.
  induction b as [|c b IH].
  - apply like_percent_all.
  - simpl append. destruct (c =? "%")%char eqn:E.
    + apply Ascii.eqb_eq in E. subst c.
      rewrite like_percent.
      change (String "%" (b ++ post)) with ("" ++ String "%" (b ++ post)).
      replace (like_chars (String "%" (b ++ "%")) (b ++ post)) with true
        by (symmetry; apply (like_percent_skip _ _ ""); exact IH).
      apply orb_true_r.
    + simpl. rewrite E. destruct (c =? "_")%char; [exact IH|].
      rewrite Ascii.eqb_refl. exact IH.
Qed.

(** A text without NUL that contains [b] matches [%b%]. *)
Lemma like_infix (b pre post : string) :
  Str.nul_free (pre ++ b ++ post) ->
  like ("%" ++ b ++ "%") (pre ++ b ++ post) = true.
Proof.
  intros H. unfold like. rewrite (c_text_nul_free _ H).
  unfold Str.nul_free in H.
  apply mem_append_false in H. destruct H as [_ H].
  apply mem_append_false in H. destruct H as [Hb _].
  rewrite c_text_nul_free.
  - simpl append. apply like_percent_skip. apply like_self.
  - unfold Str.nul_free. simpl append. simpl Str.mem.
    rewrite mem_append, Hb. reflexivity.
Qed.

End KeyFacts.

(** ** The ingestion loop *)

Section Ingestion.

Variable reddit_search :
  nat -> string -> string -> string -> string -> list Praw.submission.
Variable classifier : string -> list string -> list (string * score).
Variable clock : nat -> Z.

Lemma existsb_false {A : Type} (f : A -> bool) (l : list A) :
  existsb f l = false -> forall a, In a l -> f a = false.
Proof.
  intros H a Ha. destruct (f a) eqn:E; [|reflexivity].
  rewrite <- H. symmetry. apply existsb_exists. exists a. auto.
Qed.

(** What an accepting filter tells about the store. *)
Lemma accept_true_inv (db : database) (sub : Praw.submission)
      (ignore : list Re.regex) :
  Index.accept db sub ignore = Ok true ->
  closed db = false /\
  existsb (fun b => (Id b =? Praw.id sub)%string) (articles db) = false /\
  forall a, In a (articles db) ->
    like ("%" ++ Index.baseurl (Praw.url sub) ++ "%") (Reference a) = false.
Proof.
  intros H. destruct (closed db) eqn:Hc.
  - rewrite accept_closed in H by exact Hc. discriminate.
  - rewrite accept_open in H by exact Hc. injection H as H.
    rewrite !andb_true_iff, negb_true_iff in H.
    destruct H as [[[Hdup _] _] _].
    pose proof (existsb_false _ _ Hdup) as Hno. cbv beta in Hno.
    split; [reflexivity|]. split.
    + destruct (existsb (fun b => (Id b =? Praw.id sub)%string) (articles db))
        eqn:E; [|reflexivity].
      apply existsb_exists in E. destruct E as (a & Ha & E).
      specialize (Hno a Ha). rewrite E in Hno. discriminate.
    + intros a Ha. specialize (Hno a Ha).
      apply orb_false_iff in Hno. tauto.
Qed.

Lemma process_accepted (index : Config.document) (api : Config.api_config)
      (sub : Praw.submission) (w : world)
      (labelsets : list (string * list string)) :
  Config.labels index = Some labelsets ->
  Index.accept (store w) sub (Config.ignore api) = Ok true ->
  Index.process classifier clock index api sub w =
  (Ok tt, Index.saved w (Index.article_of sub (clock (ticks w)))
            (Index.classify classifier sub labelsets)).
Proof.
  intros Hl Ha. destruct (accept_true_inv _ _ _ Ha) as (Hc & Hid & _).
  unfold Index.process, bind, get_store, lift, read_clock,
    put_store, emit, save.
  rewrite Ha. simpl. rewrite Hl. simpl. rewrite Hc, Hid. reflexivity.
Qed.

Lemma process_rejected (index : Config.document) (api : Config.api_config)
      (sub : Praw.submission) (w : world) :
  Index.accept (store w) sub (Config.ignore api) = Ok false ->
  Index.process classifier clock index api sub w = (Ok tt, w).
Proof.
  intros Ha. unfold Index.process, bind, get_store, lift.
  rewrite Ha. reflexivity.
Qed.

(** What [process] can do to the store: nothing, or add the article of
    an accepted submission at the end. *)
Lemma process_store (index : Config.document) (api : Config.api_config)
      (sub : Praw.submission) (w w' : world) (r : result unit) :
  Index.process classifier clock index api sub w = (r, w') ->
  store w' = store w \/
  (Index.accept (store w) sub (Config.ignore api) = Ok true /\
   closed (store w') = false /\
   articles (store w') =
   articles (store w) ++ [Index.article_of sub (clock (ticks w))]).
Proof.
  unfold Index.process, bind, get_store, lift, read_clock.
  destruct (Index.accept (store w) sub (Config.ignore api)) as [[|]|e] eqn:Ha;
    simpl.
  - destruct (accept_true_inv _ _ _ Ha) as (Hc & Hid & _).
    destruct (Config.labels index) as [ls|]; simpl.
    + unfold save. simpl. rewrite Hc, Hid. simpl.
      intros H. injection H as <- <-. right. auto.
    + intros H. injection H as <- <-. left. reflexivity.
  - intros H. injection H as <- <-. left. reflexivity.
  - intros H. injection H as <- <-. left. reflexivity.
Qed.

(** On an open store and with the label sets configured, [process]
    ends without exception and leaves the store open. *)
Lemma process_total (index : Config.document) (api : Config.api_config)
      (labelsets : list (string * list string))
      (sub : Praw.submission) (w : world) :
  Config.labels index = Some labelsets ->
  closed (store w) = false ->
  exists w', Index.process classifier clock index api sub w = (Ok tt, w') /\
             closed (store w') = false.
Proof.
  intros Hl Hc.
  destruct (Index.accept (store w) sub (Config.ignore api)) as [[|]|e] eqn:Hb.
  - eexists. split; [apply (process_accepted _ _ _ _ _ Hl Hb)|reflexivity].
  - exists w. split; [apply (process_rejected _ _ _ _ Hb)|exact Hc].
  - rewrite accept_open in Hb by exact Hc. discriminate.
Qed.

Lemma for_each_total {A : Type} (body : A -> M unit) (xs : list A) :
  (forall x w, closed (store w) = false ->
     exists w', body x w = (Ok tt, w') /\ closed (store w') = false) ->
  forall w, closed (store w) = false ->
    exists w', for_each xs body w = (Ok tt, w') /\
               closed (store w') = false.
Proof.
  intros Hbody. induction xs as [|x xs IH]; intros w Hc; simpl.
  - exists w. auto.
  - unfold bind. destruct (Hbody x w Hc) as (w1 & -> & Hc1).
    apply IH. exact Hc1.
Qed.

Lemma run_query_total (index : Config.document) (api : Config.api_config)
      (labelsets : list (string * list string)) (query : string) (w : world) :
  Config.labels index = Some labelsets ->
  closed (store w) = false ->
  exists w', Index.run_query reddit_search classifier clock index api query w = (Ok tt, w') /\
             closed (store w') = false.
Proof.
  intros Hl Hc. unfold Index.run_query, bind, next_search, emit.
  simpl. apply for_each_total; [|exact Hc].
  intros x w0 Hc0. apply (process_total _ _ _ _ _ Hl Hc0).
Qed.

End Ingestion.

(** C4: with the label sets configured, an accepted submission makes
    the loop body save, in one [save], the article (id, lowercased
    community name, parsed creation time, title, URL, the time of
    ingestion read from the clock) and, label set after label set, one
    row (article id, label set name, value, score) for each pair that the
    classifier returns, in the classifier's order; a rejected submission
    leaves the world as it is; and the loop runs the body on the next
    submission in the world that the body left. *)
Theorem process_persists_article
        (classifier : string -> list string -> list (string * score))
        (clock : nat -> Z)
        (index : Config.document) (api : Config.api_config)
        (sub : Praw.submission) (w : world)
        (labelsets : list (string * list string)) :
  Config.labels index = Some labelsets ->
  let a :=
    mkArticle (Praw.id sub) (Str.lower (Praw.display_name sub))
      (Datetime (Praw.created_utc sub)) (Praw.title sub) (Praw.url sub)
      (Strftime "%Y-%m-%d %H:%M:%S" (Datetime (clock (ticks w)))) in
  let rows :=
    flat_map
      (fun set =>
         map (fun x => mkLabel None (Praw.id sub) (fst set) (fst x) (snd x))
           (classifier (Praw.title sub) (snd set)))
      labelsets in
  (Index.accept (store w) sub (Config.ignore api) = Ok true ->
   Index.process classifier clock index api sub w =
   (Ok tt,
    mkWorld
      (mkDatabase (articles (store w) ++ [a]) (labels (store w) ++ rows)
         (S (pending (store w))) false)
      (trace w ++ [DbSave a rows]) (S (ticks w)) (searches w))) /\
  (Index.accept (store w) sub (Config.ignore api) = Ok false ->
   Index.process classifier clock index api sub w = (Ok tt, w)) /\
  (forall rest w',
     Index.process classifier clock index api sub w = (Ok tt, w') ->
     for_each (sub :: rest) (Index.process classifier clock index api) w =
     for_each rest (Index.process classifier clock index api) w').
Proof.
  intros Hl a rows. split; [|split].
  - intros Ha. destruct (accept_true_inv _ _ _ Ha) as (Hopen & Hfresh & _).
    unfold Index.process, bind, get_store, lift, read_clock, put_store,
      emit, save.
    rewrite Ha. simpl. rewrite Hl. simpl. rewrite Hopen, Hfresh. reflexivity.
  - intros Ha. unfold Index.process, bind, get_store, lift.
    rewrite Ha. reflexivity.
  - intros rest w' H. simpl. unfold bind. rewrite H. reflexivity.
Qed.

Lemma process_persists_article_witness :
  Config.labels Sample.document = Some [("topic", ["science"; "sport"])] /\
  exists w',
    Index.process Sample.classifier Sample.clock Sample.document Sample.api
      (Sample.link "x1" "http://example.com/a/") Sample.world0 = (Ok tt, w') /\
    map Source (articles (store w')) = ["python"] /\
    map LValue (labels (store w')) = ["science"; "sport"].
Proof.
  split; [reflexivity|]. eexists. split.
  - apply (proj1 (process_persists_article Sample.classifier Sample.clock
                    Sample.document Sample.api
                    (Sample.link "x1" "http://example.com/a/") Sample.world0
                    [("topic", ["science"; "sport"])] eq_refl)).
    reflexivity.
  - split; reflexivity.
Defined.

(** ** The run *)

Section Run.

Variable reddit_search :
  nat -> string -> string -> string -> string -> list Praw.submission.
Variable classifier : string -> list string -> list (string * score).
Variable clock : nat -> Z.

Lemma bind_ok {A B : Type} (m : M A) (f : A -> M B) (w w' : world) (a : A) :
  m w = (Ok a, w') -> bind m f w = f a w'.
Proof. intros H. unfold bind. now rewrite H. Qed.

(** The index build on an open store. *)
Lemma embeddings_open (index : Config.document) (w : world)
      (params : list (string * string)) (path : string) :
  Config.embeddings index = Some params ->
  Config.path index = Some path ->
  closed (store w) = false ->
  Index.embeddings index w =
  (Ok tt,
   mkWorld (store w)
     (trace w ++
      [EmbeddingsNew params;
       DbQuery "SELECT Id, Title FROM articles";
       EmbeddingsIndex
         (map (fun a => (Id a, Title a, @None unit)) (articles (store w)));
       Log "INFO" "Built embedding index over %d stored articles"
         [ANat (List.length (articles (store w)))];
       EmbeddingsSave path])
     (ticks w) (searches w)).
Proof.
  intros He Hp Hc.
  unfold Index.embeddings, bind, lift, emit, get_store, select_id_title.
  rewrite He. simpl. rewrite Hc, Hp. simpl.
  rewrite !map_map, !length_map. simpl.
  rewrite <- !app_assoc. reflexivity.
Qed.

(** The queries of a run all end without exception, on an open
    store. *)
Lemma queries_total (index : Config.document) (api : Config.api_config)
      (labelsets : list (string * list string)) (w : world) :
  Config.labels index = Some labelsets ->
  closed (store w) = false ->
  exists w',
    for_each (Config.queries api)
      (Index.run_query reddit_search classifier clock index api) w
    = (Ok tt, w') /\
    closed (store w') = false.
Proof.
  intros Hl Hc. apply for_each_total; [|exact Hc].
  intros q w0 Hc0.
  apply (run_query_total reddit_search classifier clock _ _ _ _ _ Hl Hc0).
Qed.

End Run.

(** C5: with its keys present, a run ends without exception; after the
    last query it commits ([DbComplete]), then builds the index: it
    reads the id and title of every stored article, hands the triples
    (id, title, None) of exactly these articles to the embedding index in
    one call and saves the index to the configured path; only then is
    the store closed. *)
Theorem execute_completes_then_builds
        (reddit_search :
           nat -> string -> string -> string -> string -> list Praw.submission)
        (classifier : string -> list string -> list (string * score))
        (clock : nat -> Z)
        (index : Config.document) (w : world)
        (name path : string) (api : Config.api_config)
        (params : list (string * string))
        (labelsets : list (string * list string)) :
  Config.name index = Some name ->
  Config.path index = Some path ->
  Config.api index = Some api ->
  Config.embeddings index = Some params ->
  Config.labels index = Some labelsets ->
  exists w1,
    for_each (Config.queries api)
      (Index.run_query reddit_search classifier clock index api)
      (mkWorld (connect (store w))
         (trace w ++ [Log "INFO" "Refreshing index: %s" [AStr name];
                      DbConnect path])
         (ticks w) (searches w))
    = (Ok tt, w1) /\
    Index.execute reddit_search classifier clock index w =
    (Ok tt,
     mkWorld
       (mkDatabase (articles (store w1)) (labels (store w1)) 0 true)
       (trace w1 ++
        [DbComplete;
         EmbeddingsNew params;
         DbQuery "SELECT Id, Title FROM articles";
         EmbeddingsIndex
           (map (fun a => (Id a, Title a, @None unit)) (articles (store w1)));
         Log "INFO" "Built embedding index over %d stored articles"
           [ANat (List.length (articles (store w1)))];
         EmbeddingsSave path;
         DbClose;
         Log "INFO" "Indexing complete" []])
       (ticks w1) (searches w1)).
Proof.
  intros Hn Hp Ha He Hl.
  destruct (queries_total reddit_search classifier clock index api labelsets
              (mkWorld (connect (store w))
                 (trace w ++ [Log "INFO" "Refreshing index: %s" [AStr name];
                              DbConnect path])
                 (ticks w) (searches w)) Hl eq_refl) as (w1 & Hrun & Hc1).
  exists w1. split; [exact Hrun|].
  unfold Index.execute.
  unfold bind at 1. unfold lift at 1. rewrite Hn. simpl.
  unfold bind at 1. unfold emit at 1. simpl.
  unfold bind at 1. unfold lift at 1. rewrite Hp. simpl.
  unfold bind at 1. unfold get_store at 1. simpl.
  unfold bind at 1. unfold put_store at 1. simpl.
  unfold bind at 1. unfold emit at 1. simpl.
  unfold bind at 1. unfold lift at 1. rewrite Ha. simpl.
  rewrite <- app_assoc. simpl.
  erewrite bind_ok by exact Hrun.
  unfold bind at 1. unfold get_store at 1. simpl.
  unfold bind at 1. unfold lift at 1. unfold complete. rewrite Hc1. simpl.
  unfold bind at 1. unfold put_store at 1. simpl.
  unfold bind at 1. unfold emit at 1. simpl.
  erewrite bind_ok
    by (apply (embeddings_open index _ params path He Hp); reflexivity).
  simpl. unfold bind, get_store, put_store, emit, close. simpl.
  rewrite <- !app_assoc. reflexivity.
Qed.

Lemma execute_completes_then_builds_witness :
  Config.name Sample.document = Some "tldr" /\
  Config.path Sample.document = Some "/tmp/index" /\
  Config.api Sample.document = Some Sample.api /\
  Config.embeddings Sample.document = Some [("path", "model")] /\
  Config.labels Sample.document = Some [("topic", ["science"; "sport"])] /\
  fst (Index.execute Sample.reddit_search Sample.classifier Sample.clock
         Sample.document Sample.world0) = Ok tt /\
  closed (store (snd (Index.execute Sample.reddit_search Sample.classifier
                        Sample.clock Sample.document Sample.world0))) = true /\
  In (EmbeddingsIndex [("x1", "A story", None); ("x3", "A story", None)])
     (trace (snd (Index.execute Sample.reddit_search Sample.classifier
                    Sample.clock Sample.document Sample.world0))).
Proof.
  do 5 (split; [reflexivity|]).
  destruct (execute_completes_then_builds Sample.reddit_search
              Sample.classifier Sample.clock Sample.document Sample.world0
              "tldr" "/tmp/index" Sample.api [("path", "model")]
              [("topic", ["science"; "sport"])]
              eq_refl eq_refl eq_refl eq_refl eq_refl) as (w1 & Hrun & Hex).
  vm_compute in Hrun. injection Hrun as <-.
  rewrite Hex. split; [reflexivity|]. split; [reflexivity|].
  simpl. do 8 right. left. reflexivity.
Defined.

(** ** The invariant of the store *)

Section Invariant.

Variable classifier : string -> list string -> list (string * score).
Variable clock : nat -> Z.

Lemma NoDup_snoc {A : Type} (l : list A) (x : A) :
  NoDup l -> ~ In x l -> NoDup (l ++ [x]).
Proof.
  induction l as [|y l IH]; simpl; intros Hn Hx.
  - constructor; [intros []|constructor].
  - inversion Hn as [|? ? Hy Hl]; subst. constructor.
    + rewrite in_app_iff. simpl. intros [H|[H|[]]]; [exact (Hy H)|].
      apply Hx. left. symmetry. exact H.
    + apply IH; [exact Hl|]. intros H. apply Hx. right. exact H.
Qed.

(** A stored Reference without line feed and without NUL, with the
    key [k], matches the pattern that [accept] builds from [k]. *)
Lemma like_own_key (reference : string) :
  Str.clean reference -> Str.nul_free reference ->
  like ("%" ++ Index.baseurl reference ++ "%") reference = true.
Proof.
  intros Hc Hn.
  destruct (KeyFacts.baseurl_infix reference Hc) as (pre & post & H).
  rewrite H at 2. apply KeyFacts.like_infix. rewrite <- H. exact Hn.
Qed.

End Invariant.

(** C3, as the code has it: in every world that the ingestion loop
    reaches from an open, empty store on submissions whose URLs hold no
    line feed and no NUL, the normalised URLs of the stored articles
    are pairwise distinct. *)
Theorem reachable_unique_keys
        (classifier : string -> list string -> list (string * score))
        (clock : nat -> Z)
        (index : Config.document) (api : Config.api_config) (w : world) :
  Index.reachable classifier clock
    (fun s => Str.clean (Praw.url s) /\ Str.nul_free (Praw.url s))
    index api w ->
  Index.unique_keys (store w).
Proof.
  intros H.
  enough (Hinv : Forall (fun a => Str.clean (Reference a)
                                  /\ Str.nul_free (Reference a))
                   (articles (store w))
                 /\ Index.unique_keys (store w)) by apply Hinv.
  induction H as [w Hempty Hopen|w w' sub r Hreach [IHc IHu] Hsub Hstep].
  - unfold Index.unique_keys. rewrite Hempty. split; constructor.
  - apply process_store in Hstep.
    destruct Hstep as [Hsame|(Hacc & _ & Hadd)].
    + unfold Index.unique_keys in *. rewrite Hsame. auto.
    + unfold Index.unique_keys in *. rewrite Hadd. split.
      * apply Forall_app. split; [exact IHc|].
        constructor; [exact Hsub|constructor].
      * rewrite map_app. simpl. apply NoDup_snoc; [exact IHu|].
        intros Hin. apply in_map_iff in Hin.
        destruct Hin as (b & Hkey & Hb).
        destruct (accept_true_inv _ _ _ Hacc) as (_ & _ & Hlike).
        specialize (Hlike b Hb). rewrite <- Hkey in Hlike.
        rewrite Forall_forall in IHc. destruct (IHc b Hb) as [Hc Hn].
        rewrite (like_own_key _ Hc Hn) in Hlike. discriminate.
Qed.

Lemma reachable_unique_keys_witness :
  Index.unique_keys
    (store (snd (Index.process Sample.classifier Sample.clock Sample.document
                   Sample.api (Sample.link "x2" "http://example.com/a/")
                   (snd (Index.process Sample.classifier Sample.clock
                           Sample.document Sample.api
                           (Sample.link "x1" "https://www.example.com/a/index.html?x=1")
                           Sample.world0))))).
Proof.
  apply (reachable_unique_keys Sample.classifier Sample.clock Sample.document
           Sample.api).
  eapply Index.reach_step with
    (submission := Sample.link "x2" "http://example.com/a/");
    [|split; reflexivity|apply surjective_pairing].
  eapply Index.reach_step with
    (submission := Sample.link "x1" "https://www.example.com/a/index.html?x=1");
    [|split; reflexivity|apply surjective_pairing].
  apply Index.reach_start; reflexivity.
Defined.

(** C3, as stated for every submission, fails: two link posts with the
    URL [http://a.com/index.html] followed by a line feed are both
    accepted, and the store then holds two articles with one normalised
    URL. *)
Lemma reachable_unique_keys_counterexample :
  Index.reachable Sample.classifier Sample.clock (fun _ => True)
    Sample.document Sample.api Sample.world_newline /\
  map Id (articles (store Sample.world_newline)) = ["x1"; "x2"] /\
  ~ Index.unique_keys (store Sample.world_newline).
Proof.
  split; [|split].
  - unfold Sample.world_newline.
    eapply Index.reach_step with (submission := Sample.newline_link "x2");
      [|exact I|apply surjective_pairing].
    eapply Index.reach_step with (submission := Sample.newline_link "x1");
      [|exact I|apply surjective_pairing].
    apply Index.reach_start; reflexivity.
  - vm_compute. reflexivity.
  - intros H. unfold Index.unique_keys in H. vm_compute in H.
    inversion H as [|x l Hin _]. apply Hin. left. reflexivity.
Qed.

(** ** The scheduler *)

(** What a round hands to the wait is the instant computed from its
    first reading of the clock minus its second reading; a duration
    that is not negative is waited for and the run follows. *)
Lemma schedule_round_wait
      (reddit_search :
         nat -> string -> string -> string -> string -> list Praw.submission)
      (classifier : string -> list string -> list (string * score))
      (croniter_next : string -> Z -> Z)
      (clock : nat -> Z)
      (index : Config.document) (expression : string) (w : world) :
  Config.schedule index = Some expression ->
  let next := croniter_next expression (clock (ticks w)) in
  let current := clock (S (ticks w)) in
  (current <= next)%Z ->
  Index.schedule_round reddit_search classifier croniter_next clock index w =
  Index.execute reddit_search classifier clock index
    (mkWorld (store w)
       (trace w ++ [Log "INFO" "Next run scheduled for %s" [ATime next];
                    Sleep (next - current)])
       (S (S (ticks w))) (searches w)).
Proof.
  intros Hs next current H.
  unfold Index.schedule_round, bind, lift, read_clock, emit, Index.sleep, raise.
  rewrite Hs. simpl. fold next. fold current.
  destruct (next - current <? 0)%Z eqn:E; [apply Z.ltb_lt in E; lia|].
  simpl. rewrite <- app_assoc. reflexivity.
Qed.

Lemma cron_minutely_later (e : string) (t : Z) :
  (t < Sample.cron_minutely e t)%Z.
Proof.
  unfold Sample.cron_minutely.
  pose proof (Z.div_mod t 60000000 ltac:(lia)) as Hdm.
  pose proof (Z.mod_pos_bound t 60000000 ltac:(lia)) as Hb.
  lia.
Qed.

(** C6, the code at the failing input: a run is due at every full
    minute, and the cron library returns an instant strictly after its
    start; the clock is read at 59.9 s for the cron library and again at
    60.1 s for the duration.  The next run instant is 60 s, strictly
    after the first reading, and the wait is handed 60 s - 60.1 s =
    -0.1 s: a negative duration, which [time.sleep] refuses; the
    exception leaves the round before any run starts. *)
Theorem schedule_round_negative_wait :
  (forall e t, (t < Sample.cron_minutely e t)%Z) /\
  Sample.clock_late 0 = 59900000%Z /\
  Sample.clock_late 1 = 60100000%Z /\
  Sample.cron_minutely "* * * * *" (Sample.clock_late 0) = 60000000%Z /\
  (Sample.cron_minutely "* * * * *" (Sample.clock_late 0)
   - Sample.clock_late 1 = -100000)%Z /\
  exists w',
    Index.schedule_round Sample.reddit_search Sample.classifier
      Sample.cron_minutely Sample.clock_late Sample.scheduled_document
      Sample.world0
    = (Raise (ValueError "sleep length must be non-negative"), w') /\
    store w' = store Sample.world0 /\
    trace w' = [Log "INFO" "Next run scheduled for %s" [ATime 60000000]].
Proof.
  split; [exact cron_minutely_later|].
  do 4 (split; [reflexivity|]).
  eexists. split; [vm_compute; reflexivity|].
  split; reflexivity.
Qed.

(** ** The entry point *)



(** ** Facts on the three patterns of the normaliser *)

Module PatternFacts.

Import Re StrFacts ReFacts.
Local Open Scope string_scope.








(** *** The document name *)




Lemma sub_loop_S (fuel : nat) (r : regex) (repl : string) (b : bool)
      (s : string) (ma : bool) :
  sub_loop (S fuel) r repl b s ma =
  match search_from r b s ma with
  | None => s
  | Some (pre, rest) =>
      pre ++ repl ++
      sub_loop fuel r repl
        (b && (String.length rest =? String.length s)%nat) rest
        (String.length pre + String.length rest =? String.length s)%nat
  end.
Proof. reflexivity. Qed.


Lemma clean_append (a b : string) :
  Str.clean (a ++ b) -> Str.clean a /\ Str.clean b.
Proof. unfold Str.clean. apply mem_append_false. Qed.








(** *** The final slash *)






(** *** The leading protocol *)

Lemma sub_loop_bol_later (fuel : nat) (r : regex) (repl s : string)
      (ma : bool) :
  sub_loop fuel (Cat Bol r) repl false s ma = s.
Proof.
  destruct fuel; [reflexivity|].
  rewrite sub_loop_S, search_from_bol_later. reflexivity.
Qed.

Lemma sub_bol_match (r : regex) (s rest : string) :
  match_at (Cat Bol r) true s false = Some rest ->
  (String.length rest < String.length s)%nat ->
  sub (Cat Bol r) "" s = rest.
Proof.
  intros H Hlen. unfold sub.
  replace (2 * String.length s + 3)%nat with (S (2 * String.length s + 2))
    by lia.
  rewrite sub_loop_S, search_from_bol, H.
  replace (String.length rest =? String.length s)%nat with false
    by (symmetry; apply Nat.eqb_neq; lia).
  simpl. apply sub_loop_bol_later.
Qed.


Lemma rmatch_Opt {A : Type} (r : regex) (b : bool) (s : string)
      (k : bool -> string -> option A) :
  rmatch (Opt r) b s k =
  match rmatch r b s k with
  | Some x => Some x
  | None => k b s
  end.
Proof. reflexivity. Qed.

Lemma leading_http {A : Type} (r : regex) (x : string)
      (k : bool -> string -> option A) :
  rmatch (Cat Bol (Cat (lit "http") (Cat (Opt (Chr "s")) (Cat (lit "://") r))))
    true ("http://" ++ x) k = rmatch r false x k.
Proof. reflexivity. Qed.

Lemma leading_https {A : Type} (r : regex) (x : string)
      (k : bool -> string -> option A) :
  rmatch (Cat Bol (Cat (lit "http") (Cat (Opt (Chr "s")) (Cat (lit "://") r))))
    true ("https://" ++ x) k = rmatch r false x k.
Proof. simpl. destruct (rmatch r false x k); reflexivity. Qed.






End PatternFacts.

Import StrFacts ReFacts PatternFacts.
Local Open Scope string_scope.




(** * Further properties of the normaliser *)

Module KeyShape.

Import Re.

Lemma split_head_cut (c : ascii) (u q : string) :
  Str.split_head c (u ++ String c q) = Str.split_head c u.
Proof.
  induction u as [|x u IH]; simpl.
  - now rewrite Ascii.eqb_refl.
  - destruct (x =? c)%char; [reflexivity|now rewrite IH].
Qed.

Lemma split_head_no_sep (c : ascii) (u : string) :
  Str.mem c (Str.split_head c u) = false.
Proof.
  induction u as [|x u IH]; simpl; [reflexivity|].
  destruct (x =? c)%char eqn:E; [reflexivity|]. simpl. now rewrite E.
Qed.

Lemma split_head_length (c : ascii) (u : string) :
  (String.length (Str.split_head c u) <= String.length u)%nat.
Proof.
  induction u as [|x u IH]; simpl; [lia|].
  destruct (x =? c)%char; simpl; lia.
Qed.

(** Deleting matches brings in no character. *)
Lemma sub_loop_mem (c : ascii) (r : regex) (fuel : nat) :
  forall b s ma,
    Str.mem c s = false -> Str.mem c (sub_loop fuel r "" b s ma) = false.
Proof.
  induction fuel as [|fuel IH]; intros b s ma Hs; [exact Hs|].
  rewrite sub_loop_S.
  destruct (search_from r b s ma) as [[pre rest]|] eqn:E; [|exact Hs].
  apply search_from_inv in E. destruct E as (m & -> & _).
  rewrite !mem_append in Hs.
  apply orb_false_iff in Hs. destruct Hs as [Hpre Hs].
  apply orb_false_iff in Hs. destruct Hs as [_ Hrest].
  simpl append. rewrite mem_append, Hpre. simpl. apply IH. exact Hrest.
Qed.

(** Deleting matches does not lengthen the text. *)
Lemma sub_loop_length (r : regex) (fuel : nat) :
  forall b s ma,
    (String.length (sub_loop fuel r "" b s ma) <= String.length s)%nat.
Proof.
  induction fuel as [|fuel IH]; intros b s ma; [simpl; lia|].
  rewrite sub_loop_S.
  destruct (search_from r b s ma) as [[pre rest]|] eqn:E; [|lia].
  apply search_from_inv in E. destruct E as (m & -> & _).
  simpl append. rewrite !length_append.
  match goal with
  | |- context [sub_loop fuel r "" ?b0 rest ?m0] =>
      pose proof (IH b0 rest m0)
  end.
  lia.
Qed.

(** After a protocol the leading pattern always matches, and what it
    leaves does not depend on the [s] of the protocol. *)
Lemma sub_leading_protocol (y : string) :
  sub Index.leading_re "" ("http://" ++ y) =
  sub Index.leading_re "" ("https://" ++ y).
Proof.
  unfold Index.leading_re.
  destruct (rmatch (Opt (Cat (lit "www") Dot)) false y
              (fun _ s' => Some s')) as [rest|] eqn:E.
  - assert (Hlen : (String.length rest <= String.length y)%nat).
    { apply rmatch_inv in E. destruct E as (b' & m & s' & -> & E).
      injection E as ->. rewrite length_append. lia. }
    rewrite (sub_bol_match _ ("http://" ++ y) rest);
      [|unfold match_at; rewrite leading_http; exact E|simpl; lia].
    rewrite (sub_bol_match _ ("https://" ++ y) rest);
      [|unfold match_at; rewrite leading_https; exact E|simpl; lia].
    reflexivity.
  - rewrite rmatch_Opt in E.
    destruct (rmatch (Cat (lit "www") Dot) false y (fun _ s' => Some s'));
      discriminate.
Qed.

Lemma contains_infix (p pre post : string) :
  Str.contains p (pre ++ p ++ post) = true.
Proof.
  assert (Hstart : forall q, Str.startswith p (p ++ q) = true).
  { induction p as [|c p IH]; intros q; [reflexivity|].
    simpl. now rewrite Ascii.eqb_refl, IH. }
  induction pre as [|c pre IH].
  - simpl append. destruct (p ++ post) eqn:E; simpl.
    + rewrite <- E, Hstart. reflexivity.
    + rewrite <- E, Hstart. reflexivity.
  - simpl append. simpl. rewrite IH. apply orb_true_r.
Qed.

End KeyShape.

(** X1: what follows the first [?] plays no part in the key. *)
Theorem baseurl_query_ignored (u q : string) :
  Index.baseurl (u ++ String "?" q) = Index.baseurl u.
Proof.
  unfold Index.baseurl. rewrite KeyShape.split_head_cut. reflexivity.
Qed.

(** X2: the [http] and the [https] form of a URL have one key. *)
Theorem baseurl_protocol_ignored (x : string) :
  Index.baseurl ("http://" ++ x) = Index.baseurl ("https://" ++ x).
Proof.
  unfold Index.baseurl.
  change (Str.split_head "?" ("http://" ++ x))
    with ("http://" ++ Str.split_head "?" x).
  change (Str.split_head "?" ("https://" ++ x))
    with ("https://" ++ Str.split_head "?" x).
  rewrite KeyShape.sub_leading_protocol. reflexivity.
Qed.

(** X3: a key holds no [?] and is not longer than the URL. *)
Theorem baseurl_no_query_mark (u : string) :
  Str.mem "?" (Index.baseurl u) = false /\
  (String.length (Index.baseurl u) <= String.length u)%nat.
Proof.
  unfold Index.baseurl, Re.sub. split.
  - do 3 apply KeyShape.sub_loop_mem. apply KeyShape.split_head_no_sep.
  - pose proof (KeyShape.split_head_length "?" u) as H0.
    set (s0 := Str.split_head "?" u) in *.
    pose proof (KeyShape.sub_loop_length Index.leading_re
                  (2 * String.length s0 + 3) true s0 false) as H1.
    set (s1 := Re.sub_loop _ Index.leading_re "" true s0 false) in *.
    pose proof (KeyShape.sub_loop_length Index.index_re
                  (2 * String.length s1 + 3) true s1 false) as H2.
    set (s2 := Re.sub_loop _ Index.index_re "" true s1 false) in *.
    pose proof (KeyShape.sub_loop_length Index.slash_re
                  (2 * String.length s2 + 3) true s2 false) as H3.
    lia.
Qed.

(** X4: the key of a URL without line feed occurs in the URL. *)
Theorem baseurl_occurs_in_url (u : string) :
  Str.clean u -> Str.contains (Index.baseurl u) u = true.
Proof.
  intros Hu. destruct (KeyFacts.baseurl_infix u Hu) as (pre & post & H).
  rewrite H at 2. apply KeyShape.contains_infix.
Qed.

Lemma baseurl_occurs_in_url_witness :
  Str.contains (Index.baseurl "https://www.example.com/a/index.html?x=1")
    "https://www.example.com/a/index.html?x=1" = true.
Proof.
  apply (baseurl_occurs_in_url "https://www.example.com/a/index.html?x=1").
  reflexivity.
Defined.

Local Open Scope list_scope.

(** * Further properties of the filter and of the loop *)

Section Growth.

Variable reddit_search :
  nat -> string -> string -> string -> string -> list Praw.submission.
Variable classifier : string -> list string -> list (string * score).
Variable clock : nat -> Z.

(** A rejection stays a rejection when the store holds more. *)
Lemma accept_false_grows (db db' : database) (sub : Praw.submission)
      (ignore : list Re.regex) :
  closed db = false -> closed db' = false ->
  (forall a, In a (articles db) -> In a (articles db')) ->
  Index.accept db sub ignore = Ok false ->
  Index.accept db' sub ignore = Ok false.
Proof.
  intros Hc Hc' Hsub H.
  rewrite accept_open in * by assumption. injection H as H. f_equal.
  destruct (existsb _ (articles db')) eqn:E'; [reflexivity|].
  destruct (existsb _ (articles db)) eqn:E; [|exact H].
  apply existsb_exists in E. destruct E as (a & Ha & E).
  pose proof (existsb_false _ _ E' a (Hsub a Ha)) as Hno.
  assert (Habs : true = false) by (rewrite <- E; exact Hno).
  discriminate Habs.
Qed.

(** The worlds that [process] can leave: the old one, the old one with
    the clock read once, or the one with the rows saved. *)
Lemma process_cases (index : Config.document) (api : Config.api_config)
      (sub : Praw.submission) (w w' : world) (r : result unit) :
  Index.process classifier clock index api sub w = (r, w') ->
  store w' = store w \/
  exists labelsets,
    Config.labels index = Some labelsets /\
    Index.accept (store w) sub (Config.ignore api) = Ok true /\
    w' = Index.saved w (Index.article_of sub (clock (ticks w)))
           (Index.classify classifier sub labelsets).
Proof.
  unfold Index.process, bind, get_store, lift, read_clock.
  destruct (Index.accept (store w) sub (Config.ignore api)) as [[|]|e] eqn:Ha;
    simpl.
  - destruct (accept_true_inv _ _ _ Ha) as (Hc & Hid & _).
    destruct (Config.labels index) as [ls|]; simpl.
    + unfold save. simpl. rewrite Hc, Hid. simpl.
      intros H. injection H as <- <-. right. exists ls. auto.
    + intros H. injection H as <- <-. left. reflexivity.
  - intros H. injection H as <- <-. left. reflexivity.
  - intros H. injection H as <- <-. left. reflexivity.
Qed.

(** [process] keeps an open store open and every stored article in
    place. *)
Lemma process_grows (index : Config.document) (api : Config.api_config)
      (sub : Praw.submission) (w w' : world) (r : result unit) :
  Index.process classifier clock index api sub w = (r, w') ->
  closed (store w') = closed (store w) /\
  exists more, articles (store w') = articles (store w) ++ more.
Proof.
  intros H. apply process_cases in H.
  destruct H as [H|(ls & _ & Ha & ->)].
  - rewrite H. split; [reflexivity|]. exists []. now rewrite app_nil_r.
  - destruct (accept_true_inv _ _ _ Ha) as (Hc & _). simpl. rewrite Hc.
    split; [reflexivity|]. eexists. reflexivity.
Qed.

Lemma for_each_grows {A : Type} (body : A -> M unit) (xs : list A) :
  (forall x w w' r, body x w = (r, w') ->
     closed (store w') = closed (store w) /\
     exists more, articles (store w') = articles (store w) ++ more) ->
  forall w w' r, for_each xs body w = (r, w') ->
    closed (store w') = closed (store w) /\
    exists more, articles (store w') = articles (store w) ++ more.
Proof.
  intros Hbody. induction xs as [|x xs IH]; intros w w' r H; simpl in H.
  - injection H as <- <-. split; [reflexivity|].
    exists []. now rewrite app_nil_r.
  - unfold bind in H. destruct (body x w) as [[u|e] w1] eqn:E.
    + apply Hbody in E. destruct E as (Hc1 & m1 & E1).
      apply IH in H. destruct H as (Hc2 & m2 & E2).
      split; [congruence|]. exists (m1 ++ m2).
      now rewrite E2, E1, app_assoc.
    + injection H as <- <-. apply Hbody in E. exact E.
Qed.

Lemma run_query_grows (index : Config.document) (api : Config.api_config)
      (query : string) (w w' : world) (r : result unit) :
  Index.run_query reddit_search classifier clock index api query w = (r, w') ->
  closed (store w') = closed (store w) /\
  exists more, articles (store w') = articles (store w) ++ more.
Proof.
  unfold Index.run_query, bind, next_search, emit. simpl. intros H.
  apply (for_each_grows _ _ (process_grows index api)) in H. exact H.
Qed.

(** *** Rejections *)

(** The filter looks at the connection and at the articles only. *)
Lemma accept_same_articles (db db' : database) (sub : Praw.submission)
      (ignore : list Re.regex) :
  closed db = closed db' -> articles db = articles db' ->
  Index.accept db sub ignore = Index.accept db' sub ignore.
Proof.
  intros Hc Ha. unfold Index.accept, select_duplicates.
  now rewrite Hc, Ha.
Qed.

(** Once [process] has run on a submission, the filter rejects it. *)
Lemma process_then_rejected (index : Config.document)
      (api : Config.api_config) (labelsets : list (string * list string))
      (sub : Praw.submission) (w w' : world) (r : result unit) :
  Config.labels index = Some labelsets ->
  closed (store w) = false ->
  Index.process classifier clock index api sub w = (r, w') ->
  Index.accept (store w') sub (Config.ignore api) = Ok false.
Proof.
  intros Hl Hc H.
  destruct (Index.accept (store w) sub (Config.ignore api)) as [[|]|e] eqn:Ha.
  - rewrite (process_accepted classifier clock _ _ _ _ _ Hl Ha) in H.
    injection H as _ <-.
    rewrite accept_open by reflexivity. f_equal. simpl.
    rewrite existsb_app. simpl. rewrite String.eqb_refl. simpl.
    rewrite orb_true_r. reflexivity.
  - rewrite (process_rejected classifier clock _ _ _ _ Ha) in H.
    injection H as _ <-. exact Ha.
  - rewrite accept_open in Ha by exact Hc. discriminate.
Qed.

(** After the loop has run on a list, the filter rejects every
    submission of the list. *)
Lemma loop_then_rejected (index : Config.document) (api : Config.api_config)
      (labelsets : list (string * list string))
      (subs : list Praw.submission) :
  Config.labels index = Some labelsets ->
  forall w w' r,
    closed (store w) = false ->
    for_each subs (Index.process classifier clock index api) w = (r, w') ->
    forall sub, In sub subs ->
      Index.accept (store w') sub (Config.ignore api) = Ok false.
Proof.
  intros Hl. induction subs as [|s subs IH]; intros w w' r Hc H sub Hin.
  - destruct Hin.
  - simpl in H. unfold bind in H.
    destruct (process_total classifier clock index api labelsets s w Hl Hc)
      as (w1 & E & Hc1).
    rewrite E in H.
    destruct Hin as [<-|Hin].
    + pose proof (process_then_rejected _ _ _ _ _ _ _ Hl Hc E) as Hrej.
      destruct (for_each_grows _ _ (process_grows index api) _ _ _ H)
        as (Hc' & more & Hm).
      apply (accept_false_grows (store w1)); try congruence.
      intros a Ha. rewrite Hm. apply in_or_app. now left.
    + apply (IH w1 w' r Hc1 H sub Hin).
Qed.

(** A list of rejected submissions leaves the world as it is. *)
Lemma loop_all_rejected (index : Config.document) (api : Config.api_config)
      (subs : list Praw.submission) (w : world) :
  (forall sub, In sub subs ->
     Index.accept (store w) sub (Config.ignore api) = Ok false) ->
  for_each subs (Index.process classifier clock index api) w = (Ok tt, w).
Proof.
  induction subs as [|s subs IH]; intros H; [reflexivity|].
  simpl. unfold bind.
  rewrite (process_rejected classifier clock index api s w (H s (or_introl eq_refl))).
  apply IH. intros sub Hin. apply H. now right.
Qed.

End Growth.

(** X18: on an open store [accept] returns a truth value, and that
    value is true if and only if no stored article has the submission's
    id, no stored Reference matches the pattern [%] + normalised URL +
    [%] under [LIKE], the submission is not a self-post, its URL starts
    with [http], and no ignore pattern is found in the URL. *)
Theorem accept_iff_like (db : database) (sub : Praw.submission)
        (ignore : list Re.regex) :
  closed db = false ->
  exists b : bool,
    Index.accept db sub ignore = Ok b /\
    (b = true <->
     (forall a, In a (articles db) -> Id a <> Praw.id sub) /\
     (forall a, In a (articles db) ->
        like ("%" ++ Index.baseurl (Praw.url sub) ++ "%") (Reference a) = false) /\
     Praw.is_self sub = false /\
     Str.startswith "http" (Praw.url sub) = true /\
     (forall p, In p ignore -> Re.search p (Praw.url sub) = false)).
Proof.
  intros Hopen. eexists. split; [apply accept_open; exact Hopen|].
  rewrite !andb_true_iff, !negb_true_iff, forallb_forall.
  split.
  - intros [[[Hdup Hself] Hhttp] Hign].
    assert (Hno : forall a, In a (articles db) ->
              ((Id a =? Praw.id sub)%string
               || like ("%" ++ Index.baseurl (Praw.url sub) ++ "%") (Reference a))
              = false).
    { intros a Ha.
      destruct ((Id a =? Praw.id sub)%string
                || like ("%" ++ Index.baseurl (Praw.url sub) ++ "%") (Reference a))
        eqn:E; [|reflexivity].
      assert (Hex : existsb
                (fun a => (Id a =? Praw.id sub)%string
                          || like ("%" ++ Index.baseurl (Praw.url sub) ++ "%")
                               (Reference a)) (articles db) = true)
        by (apply existsb_exists; exists a; split; assumption).
      rewrite Hex in Hdup. discriminate. }
    repeat split; try assumption.
    + intros a Ha. specialize (Hno a Ha). apply orb_false_iff in Hno.
      apply String.eqb_neq. tauto.
    + intros a Ha. specialize (Hno a Ha). apply orb_false_iff in Hno. tauto.
    + intros p Hp. apply negb_true_iff. apply Hign. exact Hp.
  - intros (Hid & Hlike & Hself & Hhttp & Hign).
    repeat split; try assumption.
    + destruct (existsb _ (articles db)) eqn:E; [|reflexivity].
      apply existsb_exists in E. destruct E as (a & Ha & E).
      apply orb_true_iff in E. destruct E as [E|E].
      * apply String.eqb_eq in E. exfalso. exact (Hid a Ha E).
      * rewrite (Hlike a Ha) in E. discriminate.
    + intros p Hp. apply negb_true_iff. apply Hign. exact Hp.
Qed.

Lemma accept_iff_like_witness :
  closed (Sample.store_of [Sample.row "x1" "http://example.com/a"]) = false /\
  exists b : bool,
    Index.accept (Sample.store_of [Sample.row "x1" "http://example.com/a"])
      (Sample.link "x2" "http://example.org/b") [Re.lit "reddit.com"] = Ok b /\
    (b = true <->
     (forall a, In a (articles (Sample.store_of [Sample.row "x1" "http://example.com/a"])) ->
        Id a <> Praw.id (Sample.link "x2" "http://example.org/b")) /\
     (forall a, In a (articles (Sample.store_of [Sample.row "x1" "http://example.com/a"])) ->
        like ("%" ++ Index.baseurl (Praw.url (Sample.link "x2" "http://example.org/b")) ++ "%")
          (Reference a) = false) /\
     Praw.is_self (Sample.link "x2" "http://example.org/b") = false /\
     Str.startswith "http" (Praw.url (Sample.link "x2" "http://example.org/b")) = true /\
     (forall p, In p [Re.lit "reddit.com"] ->
        Re.search p (Praw.url (Sample.link "x2" "http://example.org/b")) = false)).
Proof.
  split; [reflexivity|].
  apply (accept_iff_like (Sample.store_of [Sample.row "x1" "http://example.com/a"])
           (Sample.link "x2" "http://example.org/b") [Re.lit "reddit.com"]).
  reflexivity.
Defined.

(** X5: on an open store, a submission whose key is the key of a stored
    Reference without line feed and without NUL is rejected, whatever
    its id. *)
Theorem accept_rejects_known_key (db : database) (sub : Praw.submission)
        (ignore : list Re.regex) (a : article) :
  closed db = false ->
  In a (articles db) ->
  Str.clean (Reference a) ->
  Str.nul_free (Reference a) ->
  Index.baseurl (Praw.url sub) = Index.baseurl (Reference a) ->
  Index.accept db sub ignore = Ok false.
Proof.
  intros Hc Ha Hclean Hnul Hkey. rewrite accept_open by exact Hc. f_equal.
  replace (existsb _ (articles db)) with true; [reflexivity|].
  symmetry. apply existsb_exists. exists a. split; [exact Ha|].
  rewrite Hkey, (like_own_key _ Hclean Hnul). apply orb_true_r.
Qed.

Lemma accept_rejects_known_key_witness :
  Index.accept (Sample.store_of [Sample.row "x1" "http://example.com/a/"])
    (Sample.link "x2" "https://www.example.com/a/index.html?x=1")
    [] = Ok false.
Proof.
  apply (accept_rejects_known_key _ _ _ (Sample.row "x1" "http://example.com/a/"));
    [reflexivity|left; reflexivity|reflexivity|reflexivity|reflexivity].
Defined.

(** X6: a submission that the filter rejects stays rejected however
    many submissions the loop processes afterwards. *)
Theorem rejection_survives_loop
        (classifier : string -> list string -> list (string * score))
        (clock : nat -> Z)
        (index : Config.document) (api : Config.api_config)
        (subs : list Praw.submission) (sub : Praw.submission)
        (w w' : world) (r : result unit) :
  Index.accept (store w) sub (Config.ignore api) = Ok false ->
  for_each subs (Index.process classifier clock index api) w = (r, w') ->
  Index.accept (store w') sub (Config.ignore api) = Ok false.
Proof.
  intros Hrej H.
  assert (Hc : closed (store w) = false).
  { destruct (closed (store w)) eqn:E; [|reflexivity].
    rewrite accept_closed in Hrej by exact E. discriminate. }
  destruct (for_each_grows _ _ (process_grows classifier clock index api)
              _ _ _ H) as (Hc' & more & Hm).
  apply (accept_false_grows (store w)); try congruence.
  intros a Ha. rewrite Hm. apply in_or_app. now left.
Qed.

Lemma rejection_survives_loop_witness :
  Index.accept
    (store (snd (for_each (Sample.reddit_search 0 "python" "rocq" "new" "week")
                   (Index.process Sample.classifier Sample.clock
                      Sample.document Sample.api)
                   Sample.world0)))
    (Sample.link "x9" "ftp://example.com/a") (Config.ignore Sample.api)
  = Ok false.
Proof.
  eapply (rejection_survives_loop Sample.classifier Sample.clock
            Sample.document Sample.api
            (Sample.reddit_search 0 "python" "rocq" "new" "week")
            (Sample.link "x9" "ftp://example.com/a") Sample.world0).
  - reflexivity.
  - apply surjective_pairing.
Defined.

(** X7: the label sets are looked up for an accepted submission only.
    Without the key [labels] an accepted submission raises [KeyError]
    after the clock is read and nothing is saved; a rejected one passes
    as usual. *)
Theorem process_without_labels
        (classifier : string -> list string -> list (string * score))
        (clock : nat -> Z)
        (index : Config.document) (api : Config.api_config)
        (sub : Praw.submission) (w : world) :
  Config.labels index = None ->
  (Index.accept (store w) sub (Config.ignore api) = Ok true ->
   Index.process classifier clock index api sub w =
   (Raise (KeyError "labels"),
    mkWorld (store w) (trace w) (S (ticks w)) (searches w))) /\
  (Index.accept (store w) sub (Config.ignore api) = Ok false ->
   Index.process classifier clock index api sub w = (Ok tt, w)).
Proof.
  intros Hl. split; intros Ha.
  - unfold Index.process, bind, get_store, lift, read_clock.
    rewrite Ha. simpl. rewrite Hl. reflexivity.
  - apply (process_rejected classifier clock _ _ _ _ Ha).
Qed.

Lemma process_without_labels_witness :
  Index.process Sample.classifier Sample.clock Sample.document_without_labels
    Sample.api (Sample.link "x1" "http://example.com/a/") Sample.world0 =
  (Raise (KeyError "labels"), mkWorld Sqlite.empty [] 1 0).
Proof.
  apply (proj1 (process_without_labels Sample.classifier Sample.clock
                  Sample.document_without_labels Sample.api
                  (Sample.link "x1" "http://example.com/a/") Sample.world0
                  eq_refl)).
  reflexivity.
Defined.

(** * Further properties of the run *)

Section RunFacts.

Variable reddit_search :
  nat -> string -> string -> string -> string -> list Praw.submission.
Variable classifier : string -> list string -> list (string * score).
Variable clock : nat -> Z.

Lemma extends_refl (w : world) : Index.extends w w.
Proof. exists []. now rewrite app_nil_r. Qed.

Lemma extends_trans (w1 w2 w3 : world) :
  Index.extends w1 w2 -> Index.extends w2 w3 -> Index.extends w1 w3.
Proof.
  intros [m1 H1] [m2 H2]. exists (m1 ++ m2). now rewrite H2, H1, app_assoc.
Qed.

Lemma extends_same_articles (w w' : world) :
  articles (store w') = articles (store w) -> Index.extends w w'.
Proof. intros H. exists []. now rewrite app_nil_r. Qed.

(** The index build does not write to the store. *)
Lemma embeddings_store (index : Config.document) (w w' : world)
      (r : result unit) :
  Index.embeddings index w = (r, w') -> store w' = store w.
Proof.
  unfold Index.embeddings, bind, lift, emit, get_store, select_id_title.
  destruct (Config.embeddings index); simpl;
    [|intros H; injection H as <- <-; reflexivity].
  destruct (closed (store w)); simpl;
    [intros H; injection H as <- <-; reflexivity|].
  destruct (Config.path index); simpl;
    intros H; injection H as <- <-; reflexivity.
Qed.

(** The queries of a run keep every stored article in place. *)
Lemma queries_grow (index : Config.document) (api : Config.api_config)
      (qs : list string) (w w' : world) (r : result unit) :
  for_each qs (Index.run_query reddit_search classifier clock index api) w
  = (r, w') ->
  closed (store w') = closed (store w) /\
  exists more, articles (store w') = articles (store w) ++ more.
Proof.
  apply for_each_grows. intros q w0 w1 r0.
  apply (run_query_grows reddit_search classifier clock).
Qed.

End RunFacts.

(** X10: whatever the document and however the run ends, it leaves
    every article that was stored before in place: a run only adds
    articles, at the end. *)
Theorem execute_only_appends
        (reddit_search :
           nat -> string -> string -> string -> string -> list Praw.submission)
        (classifier : string -> list string -> list (string * score))
        (clock : nat -> Z)
        (index : Config.document) (w w' : world) (r : result unit) :
  Index.execute reddit_search classifier clock index w = (r, w') ->
  Index.extends w w'.
Proof.
  unfold Index.execute, bind, lift, emit, get_store, put_store, getitem.
  destruct (Config.name index) as [name|];
    [|intros H; injection H as <- <-; apply extends_refl].
  simpl.
  destruct (Config.path index) as [path|];
    [|intros H; injection H as <- <-; apply extends_same_articles; reflexivity].
  simpl.
  destruct (Config.api index) as [api|];
    [|intros H; injection H as <- <-; apply extends_same_articles; reflexivity].
  simpl.
  destruct (for_each (Config.queries api) _ _) as [[u|e] w1] eqn:E;
    apply queries_grow in E; destruct E as (_ & more & E); simpl in E.
  - unfold complete. destruct (closed (store w1)); simpl.
    + intros H. injection H as <- <-. exists more. exact E.
    + destruct (Index.embeddings index _) as [[u2|e2] w2] eqn:E2;
        apply embeddings_store in E2; simpl in E2;
        intros H; injection H as <- <-; exists more; simpl;
        rewrite E2; exact E.
  - intros H. injection H as <- <-. exists more. exact E.
Qed.

Lemma execute_only_appends_witness :
  Index.extends Sample.world_two
    (snd (Index.execute Sample.reddit_search Sample.classifier Sample.clock
            Sample.document Sample.world_two)).
Proof.
  eapply (execute_only_appends Sample.reddit_search Sample.classifier
            Sample.clock Sample.document Sample.world_two).
  apply surjective_pairing.
Defined.

(** X9: the loop keeps every label row attached to a stored article:
    the rows it saves carry the id of the article saved with them. *)
Theorem loop_keeps_labels_attached
        (classifier : string -> list string -> list (string * score))
        (clock : nat -> Z)
        (index : Config.document) (api : Config.api_config)
        (subs : list Praw.submission) (w w' : world) (r : result unit) :
  Index.labels_attached (store w) ->
  for_each subs (Index.process classifier clock index api) w = (r, w') ->
  Index.labels_attached (store w').
Proof.
  revert w. induction subs as [|s subs IH]; intros w Hatt H; simpl in H.
  - injection H as _ <-. exact Hatt.
  - unfold bind in H.
    destruct (Index.process classifier clock index api s w) as [ru w1] eqn:E.
    assert (Hatt1 : Index.labels_attached (store w1)).
    { apply process_cases in E. destruct E as [E|(ls & _ & _ & ->)].
      - rewrite E. exact Hatt.
      - intros l Hl. simpl in Hl. apply in_app_or in Hl.
        destruct Hl as [Hl|Hl].
        + destruct (Hatt l Hl) as (a & Ha & Hid). exists a.
          split; [simpl; apply in_or_app; now left|exact Hid].
        + exists (Index.article_of s (clock (ticks w))).
          split; [simpl; apply in_or_app; right; now left|].
          unfold Index.classify in Hl. apply in_flat_map in Hl.
          destruct Hl as (set & _ & Hl). apply in_map_iff in Hl.
          destruct Hl as (x & <- & _). reflexivity. }
    destruct ru as [u|e].
    + apply (IH w1 Hatt1 H).
    + injection H as _ <-. exact Hatt1.
Qed.

Lemma loop_keeps_labels_attached_witness :
  Index.labels_attached
    (store (snd (for_each (Sample.reddit_search 0 "python" "rocq" "new" "week")
                   (Index.process Sample.classifier Sample.clock
                      Sample.document Sample.api)
                   Sample.world0))).
Proof.
  eapply (loop_keeps_labels_attached Sample.classifier Sample.clock
            Sample.document Sample.api
            (Sample.reddit_search 0 "python" "rocq" "new" "week")
            Sample.world0).
  - intros l [].
  - apply surjective_pairing.
Defined.

Section Rerun.

Variable reddit_search :
  nat -> string -> string -> string -> string -> list Praw.submission.
Variable classifier : string -> list string -> list (string * score).
Variable clock : nat -> Z.

(** With [name], [path] and [api] present, a run whose queries end
    without exception goes on with the commit, the build and the
    close. *)
Lemma execute_front (index : Config.document) (w w1 : world)
      (name path : string) (api : Config.api_config) :
  Config.name index = Some name ->
  Config.path index = Some path ->
  Config.api index = Some api ->
  for_each (Config.queries api)
    (Index.run_query reddit_search classifier clock index api)
    (mkWorld (connect (store w))
       (trace w ++ [Log "INFO" "Refreshing index: %s" [AStr name];
                    DbConnect path])
       (ticks w) (searches w))
  = (Ok tt, w1) ->
  Index.execute reddit_search classifier clock index w =
  (database <- get_store ;;
   database' <- lift (complete database) ;;
   put_store database' ;;
   emit DbComplete ;;
   Index.embeddings index ;;
   database <- get_store ;;
   put_store (close database) ;;
   emit DbClose ;;
   emit (Log "INFO" "Indexing complete" [])) w1.
Proof.
  intros Hn Hp Ha Hrun. unfold Index.execute.
  unfold bind at 1. unfold lift at 1. rewrite Hn. simpl.
  unfold bind at 1. unfold emit at 1. simpl.
  unfold bind at 1. unfold lift at 1. rewrite Hp. simpl.
  unfold bind at 1. unfold get_store at 1. simpl.
  unfold bind at 1. unfold put_store at 1. simpl.
  unfold bind at 1. unfold emit at 1. simpl.
  unfold bind at 1. unfold lift at 1. rewrite Ha. simpl.
  rewrite <- app_assoc. simpl.
  erewrite bind_ok by exact Hrun. reflexivity.
Qed.

(** The world that a run leaves after queries that ended in [w1]. *)
Lemma execute_run (index : Config.document) (w w1 : world)
      (name path : string) (api : Config.api_config)
      (params : list (string * string)) :
  Config.name index = Some name ->
  Config.path index = Some path ->
  Config.api index = Some api ->
  Config.embeddings index = Some params ->
  for_each (Config.queries api)
    (Index.run_query reddit_search classifier clock index api)
    (mkWorld (connect (store w))
       (trace w ++ [Log "INFO" "Refreshing index: %s" [AStr name];
                    DbConnect path])
       (ticks w) (searches w))
  = (Ok tt, w1) ->
  exists w2,
    Index.execute reddit_search classifier clock index w = (Ok tt, w2) /\
    store w2 = mkDatabase (articles (store w1)) (labels (store w1)) 0 true.
Proof.
  intros Hn Hp Ha He Hrun.
  rewrite (execute_front index w w1 name path api Hn Hp Ha Hrun).
  destruct (queries_grow reddit_search classifier clock _ _ _ _ _ _ Hrun)
    as (Hc & _). simpl in Hc.
  unfold bind at 1. unfold get_store at 1. simpl.
  unfold bind at 1. unfold lift at 1. unfold complete. rewrite Hc. simpl.
  unfold bind at 1. unfold put_store at 1. simpl.
  unfold bind at 1. unfold emit at 1. simpl.
  erewrite bind_ok
    by (apply (embeddings_open index _ params path He Hp); reflexivity).
  eexists. split; reflexivity.
Qed.

(** After the queries of a run, the filter rejects every submission
    that a platform with unchanging answers returns for them. *)
Lemma queries_then_rejected (index : Config.document)
      (api : Config.api_config) (labelsets : list (string * list string))
      (qs : list string) :
  Config.labels index = Some labelsets ->
  (forall n m sr q so t,
     reddit_search n sr q so t = reddit_search m sr q so t) ->
  forall w w' r,
    closed (store w) = false ->
    for_each qs (Index.run_query reddit_search classifier clock index api) w
    = (r, w') ->
    forall q n sub,
      In q qs ->
      In sub (reddit_search n (Config.subreddit api)
                (q ++ " self:0 nsfw:0")%string
                (Config.sort api) (Config.time api)) ->
      Index.accept (store w') sub (Config.ignore api) = Ok false.
Proof.
  intros Hl Hconst. induction qs as [|q0 qs IH];
    intros w w' r Hc H q n sub Hq Hsub.
  - destruct Hq.
  - simpl in H. unfold bind in H.
    destruct (run_query_total reddit_search classifier clock index api
                labelsets q0 w Hl Hc) as (wq & E & Hcq).
    rewrite E in H.
    destruct Hq as [<-|Hq].
    + unfold Index.run_query, bind, next_search, emit in E. simpl in E.
      rewrite (Hconst n (searches w)) in Hsub.
      assert (Hrej : Index.accept (store wq) sub (Config.ignore api) = Ok false).
      { eapply (loop_then_rejected classifier clock index api labelsets);
          [exact Hl| |exact E|exact Hsub]. exact Hc. }
      destruct (queries_grow reddit_search classifier clock _ _ _ _ _ _ H)
        as (Hc' & more & Hm).
      apply (accept_false_grows (store wq)); try congruence.
      intros a Ha. rewrite Hm. apply in_or_app. now left.
    + apply (IH wq w' r Hcq H q n sub Hq Hsub).
Qed.

(** Queries whose submissions are all rejected leave the store as it
    is. *)
Lemma queries_all_rejected (index : Config.document)
      (api : Config.api_config) (qs : list string) :
  forall w,
    (forall q n sub,
       In q qs ->
       In sub (reddit_search n (Config.subreddit api)
                 (q ++ " self:0 nsfw:0")%string
                 (Config.sort api) (Config.time api)) ->
       Index.accept (store w) sub (Config.ignore api) = Ok false) ->
    exists w',
      for_each qs (Index.run_query reddit_search classifier clock index api) w
      = (Ok tt, w') /\
      store w' = store w.
Proof.
  induction qs as [|q0 qs IH]; intros w H.
  - exists w. split; reflexivity.
  - set (w0 := mkWorld (store w)
                 (trace w ++
                  [Search (Config.subreddit api) (q0 ++ " self:0 nsfw:0")%string
                     (Config.sort api) (Config.time api)])
                 (ticks w) (S (searches w))).
    destruct (IH w0) as (w' & E & Hs).
    { intros q n sub Hq Hsub. apply (H q n sub); [now right|exact Hsub]. }
    exists w'. split; [|exact Hs].
    simpl. unfold bind at 1.
    unfold Index.run_query at 1. unfold bind, next_search, emit. simpl.
    fold w0. rewrite loop_all_rejected; [exact E|].
    intros sub Hsub. apply (H q0 (searches w) sub); [now left|exact Hsub].
Qed.

End Rerun.

(** X14: a second run over unchanged answers of the platform stores
    nothing: with the keys of the document present, a run that follows
    a run ends without exception and leaves the articles and the label
    rows of the first. *)
Theorem rerun_stores_nothing
        (reddit_search :
           nat -> string -> string -> string -> string -> list Praw.submission)
        (classifier : string -> list string -> list (string * score))
        (clock : nat -> Z)
        (index : Config.document) (w w1 : world)
        (name path : string) (api : Config.api_config)
        (params : list (string * string))
        (labelsets : list (string * list string)) :
  Config.name index = Some name ->
  Config.path index = Some path ->
  Config.api index = Some api ->
  Config.embeddings index = Some params ->
  Config.labels index = Some labelsets ->
  (forall n m sr q so t,
     reddit_search n sr q so t = reddit_search m sr q so t) ->
  Index.execute reddit_search classifier clock index w = (Ok tt, w1) ->
  exists w2,
    Index.execute reddit_search classifier clock index w1 = (Ok tt, w2) /\
    articles (store w2) = articles (store w1) /\
    labels (store w2) = labels (store w1).
Proof.
  intros Hn Hp Ha He Hl Hconst Hfirst.
  destruct (queries_total reddit_search classifier clock index api labelsets
              (mkWorld (connect (store w))
                 (trace w ++ [Log "INFO" "Refreshing index: %s" [AStr name];
                              DbConnect path])
                 (ticks w) (searches w)) Hl eq_refl) as (wL & Hrun & HcL).
  destruct (execute_run reddit_search classifier clock index w wL name path
              api params Hn Hp Ha He Hrun) as (w1' & Hex & Hstore).
  rewrite Hex in Hfirst. injection Hfirst as ->.
  assert (Hrej : forall q n sub,
             In q (Config.queries api) ->
             In sub (reddit_search n (Config.subreddit api)
                       (q ++ " self:0 nsfw:0")%string
                       (Config.sort api) (Config.time api)) ->
             Index.accept (store wL) sub (Config.ignore api) = Ok false).
  { intros q n sub Hq Hsub.
    eapply (queries_then_rejected reddit_search classifier clock index api
              labelsets (Config.queries api));
      [exact Hl|exact Hconst| |exact Hrun|exact Hq|exact Hsub].
    reflexivity. }
  destruct (queries_all_rejected reddit_search classifier clock index api
              (Config.queries api)
              (mkWorld (connect (store w1))
                 (trace w1 ++ [Log "INFO" "Refreshing index: %s" [AStr name];
                               DbConnect path])
                 (ticks w1) (searches w1))) as (wL' & Hrun' & Hsame).
  { intros q n sub Hq Hsub.
    rewrite (accept_same_articles _ (store wL)).
    - apply (Hrej q n sub Hq Hsub).
    - simpl. symmetry. exact HcL.
    - simpl. rewrite Hstore. reflexivity. }
  destruct (execute_run reddit_search classifier clock index w1 wL' name path
              api params Hn Hp Ha He Hrun') as (w2 & Hex2 & Hstore2).
  exists w2. split; [exact Hex2|].
  rewrite Hstore2, Hsame. simpl. rewrite Hstore. split; reflexivity.
Qed.

Lemma rerun_stores_nothing_witness :
  exists w2,
    Index.execute Sample.reddit_search Sample.classifier Sample.clock
      Sample.document Sample.world_after_run = (Ok tt, w2) /\
    articles (store w2) = articles (store Sample.world_after_run) /\
    labels (store w2) = labels (store Sample.world_after_run).
Proof.
  apply (rerun_stores_nothing Sample.reddit_search Sample.classifier
           Sample.clock Sample.document Sample.world0 Sample.world_after_run
           "tldr" "/tmp/index" Sample.api [("path", "model")]
           [("topic", ["science"; "sport"])]
           eq_refl eq_refl eq_refl eq_refl eq_refl).
  - reflexivity.
  - vm_compute. reflexivity.
Defined.

(** X15: the key [embeddings] is looked up after the queries.  Without
    it a run with its other keys present processes every query and
    commits, then raises [KeyError]; the store keeps what was saved and
    its connection stays open. *)
Theorem execute_without_embeddings
        (reddit_search :
           nat -> string -> string -> string -> string -> list Praw.submission)
        (classifier : string -> list string -> list (string * score))
        (clock : nat -> Z)
        (index : Config.document) (w : world)
        (name path : string) (api : Config.api_config)
        (labelsets : list (string * list string)) :
  Config.name index = Some name ->
  Config.path index = Some path ->
  Config.api index = Some api ->
  Config.labels index = Some labelsets ->
  Config.embeddings index = None ->
  exists w1,
    for_each (Config.queries api)
      (Index.run_query reddit_search classifier clock index api)
      (mkWorld (connect (store w))
         (trace w ++ [Log "INFO" "Refreshing index: %s" [AStr name];
                      DbConnect path])
         (ticks w) (searches w))
    = (Ok tt, w1) /\
    Index.execute reddit_search classifier clock index w =
    (Raise (KeyError "embeddings"),
     mkWorld (mkDatabase (articles (store w1)) (labels (store w1)) 0 false)
       (trace w1 ++ [DbComplete]) (ticks w1) (searches w1)).
Proof.
  intros Hn Hp Ha Hl He.
  destruct (queries_total reddit_search classifier clock index api labelsets
              (mkWorld (connect (store w))
                 (trace w ++ [Log "INFO" "Refreshing index: %s" [AStr name];
                              DbConnect path])
                 (ticks w) (searches w)) Hl eq_refl) as (w1 & Hrun & Hc1).
  exists w1. split; [exact Hrun|].
  rewrite (execute_front reddit_search classifier clock index w w1 name path
             api Hn Hp Ha Hrun).
  unfold bind, get_store, lift, complete, put_store, emit, Index.embeddings.
  rewrite Hc1. simpl. rewrite He. reflexivity.
Qed.

Lemma execute_without_embeddings_witness :
  fst (Index.execute Sample.reddit_search Sample.classifier Sample.clock
         Sample.document_without_embeddings Sample.world0)
  = Raise (KeyError "embeddings") /\
  closed (store (snd (Index.execute Sample.reddit_search Sample.classifier
                        Sample.clock Sample.document_without_embeddings
                        Sample.world0))) = false /\
  map Id (articles (store (snd (Index.execute Sample.reddit_search
                                  Sample.classifier Sample.clock
                                  Sample.document_without_embeddings
                                  Sample.world0)))) = ["x1"; "x3"].
Proof.
  destruct (execute_without_embeddings Sample.reddit_search Sample.classifier
              Sample.clock Sample.document_without_embeddings Sample.world0
              "tldr" "/tmp/index" Sample.api
              [("topic", ["science"; "sport"])]
              eq_refl eq_refl eq_refl eq_refl eq_refl) as (w1 & Hrun & Hex).
  vm_compute in Hrun. injection Hrun as <-.
  rewrite Hex. repeat split.
Defined.

Section ScheduleFacts.

Variable reddit_search :
  nat -> string -> string -> string -> string -> list Praw.submission.
Variable classifier : string -> list string -> list (string * score).
Variable croniter_next : string -> Z -> Z.
Variable clock : nat -> Z.

(** The loop cut after one more round is the loop followed by a
    round. *)
Lemma schedule_loop_snoc (n : nat) (index : Config.document) (w : world) :
  Index.schedule_loop reddit_search classifier croniter_next clock (S n) index w
  = match Index.schedule_loop reddit_search classifier croniter_next clock
            n index w with
    | (Ok _, w1) =>
        Index.schedule_round reddit_search classifier croniter_next clock
          index w1
    | (Raise e, w1) => (Raise e, w1)
    end.
Proof.
  assert (Hstep : forall k w0,
            Index.schedule_loop reddit_search classifier croniter_next clock
              (S k) index w0
            = match Index.schedule_round reddit_search classifier
                      croniter_next clock index w0 with
              | (Ok _, w1) =>
                  Index.schedule_loop reddit_search classifier croniter_next
                    clock k index w1
              | (Raise e, w1) => (Raise e, w1)
              end) by reflexivity.
  revert w. induction n as [|n IH]; intros w.
  - rewrite Hstep. simpl.
    destruct (Index.schedule_round _ _ _ _ index w) as [[[]|e] w1]; reflexivity.
  - rewrite (Hstep (S n)), (Hstep n).
    destruct (Index.schedule_round _ _ _ _ index w) as [[u|e] w1];
      [apply IH|reflexivity].
Qed.

End ScheduleFacts.

(** X16: with every key of the document present, when in each of the
    rounds asked for the second reading of the clock is not past the
    instant computed from the round's first reading, the rounds of the
    scheduler end without exception, and after a round the store is
    closed.  Nothing is asked of the readings that a run makes between
    two rounds. *)
Theorem schedule_rounds_succeed
        (reddit_search :
           nat -> string -> string -> string -> string -> list Praw.submission)
        (classifier : string -> list string -> list (string * score))
        (croniter_next : string -> Z -> Z)
        (clock : nat -> Z)
        (index : Config.document)
        (name path expression : string) (api : Config.api_config)
        (params : list (string * string))
        (labelsets : list (string * list string))
        (rounds : nat) (w : world) :
  Config.name index = Some name ->
  Config.path index = Some path ->
  Config.api index = Some api ->
  Config.embeddings index = Some params ->
  Config.labels index = Some labelsets ->
  Config.schedule index = Some expression ->
  let entered :=
    mkWorld (store w)
      (trace w ++
       [Log "INFO" "Indexing scheduler enabled for %s using schedule %s"
          [AStr name; AStr expression]])
      (ticks w) (searches w) in
  (forall k w1,
     (k < rounds)%nat ->
     Index.schedule_loop reddit_search classifier croniter_next clock k index
       entered = (Ok tt, w1) ->
     (clock (S (ticks w1)) <= croniter_next expression (clock (ticks w1)))%Z) ->
  exists w',
    Index.schedule reddit_search classifier croniter_next clock
      rounds index w = (Ok tt, w') /\
    ((0 < rounds)%nat -> closed (store w') = true).
Proof.
  intros Hn Hp Ha He Hl Hs entered Hclock.
  unfold Index.schedule, bind, lift, emit. rewrite Hn, Hs. simpl.
  fold entered. clearbody entered.
  induction rounds as [|rounds IH].
  - exists entered. split; [reflexivity|lia].
  - destruct IH as (w1 & Hloop & _).
    { intros k w1 Hk. apply Hclock. lia. }
    rewrite schedule_loop_snoc, Hloop.
    rewrite (schedule_round_wait reddit_search classifier croniter_next clock
               index expression w1 Hs (Hclock rounds w1 (Nat.lt_succ_diag_r _) Hloop)).
    match goal with
    | |- context [Index.execute reddit_search classifier clock index ?w0] =>
        destruct (queries_total reddit_search classifier clock index api
                    labelsets
                    (mkWorld (connect (store w0))
                       (trace w0 ++
                        [Log "INFO" "Refreshing index: %s" [AStr name];
                         DbConnect path])
                       (ticks w0) (searches w0)) Hl eq_refl)
          as (wL & Hrun & HcL);
        destruct (execute_run reddit_search classifier clock index w0 wL
                    name path api params Hn Hp Ha He Hrun)
          as (w2 & Hex & Hstore)
    end.
    exists w2. split; [exact Hex|]. intros _. rewrite Hstore. reflexivity.
Qed.

Lemma schedule_rounds_succeed_witness :
  (Sample.cron_minutely "* * * * *" (Sample.clock_busy 1) < Sample.clock_busy 2)%Z /\
  exists w',
    Index.schedule Sample.reddit_search Sample.classifier
      Sample.cron_minutely Sample.clock_busy 2 Sample.scheduled_document
      Sample.world0 = (Ok tt, w') /\
    ((0 < 2)%nat -> closed (store w') = true).
Proof.
  split; [reflexivity|].
  apply (schedule_rounds_succeed Sample.reddit_search Sample.classifier
           Sample.cron_minutely Sample.clock_busy Sample.scheduled_document
           "tldr" "/tmp/index" "* * * * *" Sample.api [("path", "model")]
           [("topic", ["science"; "sport"])] 2 Sample.world0
           eq_refl eq_refl eq_refl eq_refl eq_refl eq_refl).
  intros [|[|k]] w1 Hk Hloop; [| |lia];
    vm_compute in Hloop; injection Hloop as <-; vm_compute; discriminate.
Defined.

(** X17: an exception ends the scheduler: once some round has raised,
    asking for more rounds changes nothing. *)
Theorem schedule_loop_stops_at_exception
        (reddit_search :
           nat -> string -> string -> string -> string -> list Praw.submission)
        (classifier : string -> list string -> list (string * score))
        (croniter_next : string -> Z -> Z)
        (clock : nat -> Z)
        (index : Config.document) (n m : nat) (w w' : world) (e : exn) :
  Index.schedule_loop reddit_search classifier croniter_next clock n index w
  = (Raise e, w') ->
  Index.schedule_loop reddit_search classifier croniter_next clock (n + m)
    index w
  = (Raise e, w').
Proof.
  revert w. induction n as [|n IH]; intros w H.
  - discriminate H.
  - simpl in *. unfold bind in *.
    destruct (Index.schedule_round reddit_search classifier croniter_next
                clock index w) as [[u|e0] w1].
    + apply IH. exact H.
    + exact H.
Qed.

Lemma schedule_loop_stops_at_exception_witness :
  Index.schedule_loop Sample.reddit_search Sample.classifier
    Sample.cron_minutely Sample.clock_late (1 + 5) Sample.scheduled_document
    Sample.world0
  = (Raise (ValueError "sleep length must be non-negative"),
     mkWorld Sqlite.empty
       [Log "INFO" "Next run scheduled for %s" [ATime 60000000]] 2 0).
Proof.
  apply (schedule_loop_stops_at_exception Sample.reddit_search
           Sample.classifier Sample.cron_minutely Sample.clock_late
           Sample.scheduled_document 1 5).
  vm_compute. reflexivity.
Defined.

(** X8: on a closed store the loop stops at its first submission: the
    failure of the lookup is raised, the remaining submissions are not
    processed and the world is as before. *)
Theorem loop_stops_on_closed_store
        (classifier : string -> list string -> list (string * score))
        (clock : nat -> Z)
        (index : Config.document) (api : Config.api_config)
        (sub : Praw.submission) (rest : list Praw.submission) (w : world) :
  closed (store w) = true ->
  for_each (sub :: rest) (Index.process classifier clock index api) w =
  (Raise (ProgrammingError "Cannot operate on a closed database."), w).
Proof.
  intros Hc. simpl.
  unfold bind at 1. unfold Index.process, bind, get_store, lift.
  rewrite (accept_closed _ _ _ Hc). reflexivity.
Qed.

Lemma loop_stops_on_closed_store_witness :
  for_each [Sample.link "x2" "http://example.org/b";
            Sample.link "x3" "http://example.org/c"]
    (Index.process Sample.classifier Sample.clock Sample.document Sample.api)
    (mkWorld Sample.closed_store [] 0 0) =
  (Raise (ProgrammingError "Cannot operate on a closed database."),
   mkWorld Sample.closed_store [] 0 0).
Proof.
  apply (loop_stops_on_closed_store Sample.classifier Sample.clock
           Sample.document Sample.api).
  reflexivity.
Defined.

Section RunInvariant.

Variable reddit_search :
  nat -> string -> string -> string -> string -> list Praw.submission.
Variable classifier : string -> list string -> list (string * score).
Variable clock : nat -> Z.

(** A property of the stored articles that the loop body keeps for the
    submissions of the platform is kept by a run. *)
Lemma execute_invariant (I : list article -> Prop)
      (Q : Praw.submission -> Prop) (index : Config.document) :
  (forall api sub w w' r,
     Config.api index = Some api ->
     Q sub ->
     Index.process classifier clock index api sub w = (r, w') ->
     I (articles (store w)) -> I (articles (store w'))) ->
  (forall n sr q so t sub, In sub (reddit_search n sr q so t) -> Q sub) ->
  forall w w' r,
    Index.execute reddit_search classifier clock index w = (r, w') ->
    I (articles (store w)) -> I (articles (store w')).
Proof.
  intros Hbody HQ.
  assert (Hloop : forall api subs,
            Config.api index = Some api ->
            (forall sub, In sub subs -> Q sub) ->
            forall w w' r,
              for_each subs (Index.process classifier clock index api) w
              = (r, w') ->
              I (articles (store w)) -> I (articles (store w'))).
  { intros api subs Hapi.
    induction subs as [|s subs IH]; intros Hsubs w w' r H Hi.
    - injection H as _ <-. exact Hi.
    - simpl in H. unfold bind in H.
      destruct (Index.process classifier clock index api s w)
        as [[u|e] w1] eqn:E.
      + apply (IH (fun sub Hin => Hsubs sub (or_intror Hin)) w1 w' r H).
        apply (Hbody api s w w1 _ Hapi (Hsubs s (or_introl eq_refl)) E Hi).
      + injection H as _ <-.
        apply (Hbody api s w w1 _ Hapi (Hsubs s (or_introl eq_refl)) E Hi). }
  assert (Hqueries : forall api qs,
            Config.api index = Some api ->
            forall w w' r,
              for_each qs
                (Index.run_query reddit_search classifier clock index api) w
              = (r, w') ->
              I (articles (store w)) -> I (articles (store w'))).
  { intros api qs Hapi. induction qs as [|q qs IH]; intros w w' r H Hi.
    - injection H as _ <-. exact Hi.
    - simpl in H. unfold bind at 1 in H.
      destruct (Index.run_query reddit_search classifier clock index api q w)
        as [[u|e] w1] eqn:E;
        unfold Index.run_query, bind, next_search, emit in E; simpl in E;
        apply (Hloop api _ Hapi) in E; try exact Hi;
        try (intros sub Hin; apply (HQ _ _ _ _ _ sub Hin)).
      + apply (IH w1 w' r H E).
      + injection H as _ <-. exact E. }
  intros w w' r.
  unfold Index.execute, bind, lift, emit, get_store, put_store, getitem.
  destruct (Config.name index) as [name|];
    [|intros H; injection H as _ <-; auto].
  simpl.
  destruct (Config.path index) as [path|];
    [|intros H; injection H as _ <-; auto].
  simpl.
  destruct (Config.api index) as [api|] eqn:Hapi;
    [|intros H; injection H as _ <-; auto].
  simpl.
  destruct (for_each (Config.queries api) _ _) as [[u|e] w1] eqn:E;
    intros H Hi; apply (Hqueries api _ eq_refl) in E; try exact Hi;
    simpl in E.
  - unfold complete in H. destruct (closed (store w1)); simpl in H.
    + injection H as _ <-. exact E.
    + destruct (Index.embeddings index _) as [[u2|e2] w2] eqn:E2;
        apply embeddings_store in E2; simpl in E2;
        injection H as _ <-; simpl; rewrite E2; exact E.
  - injection H as _ <-. exact E.
Qed.

End RunInvariant.

(** X11: a run keeps the ids of the stored articles distinct, however
    it ends. *)
Theorem execute_keeps_ids_unique
        (reddit_search :
           nat -> string -> string -> string -> string -> list Praw.submission)
        (classifier : string -> list string -> list (string * score))
        (clock : nat -> Z)
        (index : Config.document) (w w' : world) (r : result unit) :
  NoDup (map Id (articles (store w))) ->
  Index.execute reddit_search classifier clock index w = (r, w') ->
  NoDup (map Id (articles (store w'))).
Proof.
  intros Hi H.
  apply (execute_invariant reddit_search classifier clock
           (fun l => NoDup (map Id l)) (fun _ => True) index) with (w := w) (r := r);
    [| auto |exact H|exact Hi].
  clear. intros api sub w w' r _ _ Hstep IH.
  apply process_cases in Hstep.
  destruct Hstep as [Hsame|(ls & _ & Hacc & ->)].
  - rewrite Hsame. exact IH.
  - simpl. rewrite map_app. simpl. apply NoDup_snoc; [exact IH|].
    intros Hin. apply in_map_iff in Hin. destruct Hin as (b & Hid & Hb).
    destruct (accept_true_inv _ _ _ Hacc) as (_ & Hfresh & _).
    pose proof (existsb_false _ _ Hfresh b Hb) as Hno. cbv beta in Hno.
    rewrite Hid, String.eqb_refl in Hno. discriminate.
Qed.

Lemma execute_keeps_ids_unique_witness :
  NoDup (map Id (articles (store Sample.world_after_run))).
Proof.
  eapply (execute_keeps_ids_unique Sample.reddit_search Sample.classifier
            Sample.clock Sample.document Sample.world0).
  - constructor.
  - apply surjective_pairing.
Defined.

(** X13: a run keeps the stored References admissible: when each one
    starts with [http] and holds no match of an ignore pattern of the
    document before the run, so it is after, however the run ends. *)
Theorem execute_keeps_references_admitted
        (reddit_search :
           nat -> string -> string -> string -> string -> list Praw.submission)
        (classifier : string -> list string -> list (string * score))
        (clock : nat -> Z)
        (index : Config.document) (api : Config.api_config)
        (w w' : world) (r : result unit) :
  Config.api index = Some api ->
  (forall a, In a (articles (store w)) ->
     Str.startswith "http" (Reference a) = true /\
     forall p, In p (Config.ignore api) -> Re.search p (Reference a) = false) ->
  Index.execute reddit_search classifier clock index w = (r, w') ->
  forall a, In a (articles (store w')) ->
    Str.startswith "http" (Reference a) = true /\
    forall p, In p (Config.ignore api) -> Re.search p (Reference a) = false.
Proof.
  intros Hapi Hi H.
  apply (execute_invariant reddit_search classifier clock
           (fun l => forall a, In a l ->
              Str.startswith "http" (Reference a) = true /\
              forall p, In p (Config.ignore api) ->
                Re.search p (Reference a) = false)
           (fun _ => True) index) with (w := w) (r := r);
    [| auto |exact H|exact Hi].
  clear - Hapi. intros api0 sub w w' r Hapi0 _ Hstep IH a Ha.
  rewrite Hapi in Hapi0. injection Hapi0 as <-.
  apply process_cases in Hstep.
  destruct Hstep as [Hsame|(ls & _ & Hacc & ->)].
  - rewrite Hsame in Ha. apply IH. exact Ha.
  - simpl in Ha. apply in_app_or in Ha. destruct Ha as [Ha|[<-|[]]].
    + apply IH. exact Ha.
    + destruct (accept_true_inv _ _ _ Hacc) as (Hc & _).
      rewrite accept_open in Hacc by exact Hc. injection Hacc as Hacc.
      rewrite !andb_true_iff in Hacc.
      destruct Hacc as [[_ Hhttp] Hign]. split; [exact Hhttp|].
      intros p Hp. rewrite forallb_forall in Hign.
      apply negb_true_iff. apply Hign. exact Hp.
Qed.

Lemma execute_keeps_references_admitted_witness :
  Forall (fun a => Str.startswith "http" (Reference a) = true /\
                   Forall (fun p => Re.search p (Reference a) = false)
                     (Config.ignore Sample.api))
    (articles (store Sample.world_after_run)).
Proof.
  apply Forall_forall. intros a Ha.
  destruct (execute_keeps_references_admitted Sample.reddit_search
              Sample.classifier Sample.clock Sample.document Sample.api
              Sample.world0 Sample.world_after_run
              (fst (Index.execute Sample.reddit_search Sample.classifier
                      Sample.clock Sample.document Sample.world0))
              eq_refl (fun a0 (H : In a0 []) => match H with end)
              (surjective_pairing _) a Ha) as [Hhttp Hign].
  split; [exact Hhttp|]. apply Forall_forall. exact Hign.
Defined.

(** X12: when no URL of the platform and no stored Reference holds a
    line feed or a NUL, a run keeps the keys of the stored articles
    distinct, however it ends. *)
Theorem execute_keeps_keys_unique
        (reddit_search :
           nat -> string -> string -> string -> string -> list Praw.submission)
        (classifier : string -> list string -> list (string * score))
        (clock : nat -> Z)
        (index : Config.document) (w w' : world) (r : result unit) :
  (forall n sr q so t sub,
     In sub (reddit_search n sr q so t) ->
     Str.clean (Praw.url sub) /\ Str.nul_free (Praw.url sub)) ->
  Forall (fun a => Str.clean (Reference a) /\ Str.nul_free (Reference a))
    (articles (store w)) ->
  Index.unique_keys (store w) ->
  Index.execute reddit_search classifier clock index w = (r, w') ->
  Index.unique_keys (store w').
Proof.
  intros Hplat Hclean Hu H.
  enough (Hinv : Forall (fun a => Str.clean (Reference a)
                                  /\ Str.nul_free (Reference a))
                   (articles (store w'))
                 /\ NoDup (map (fun a => Index.baseurl (Reference a))
                             (articles (store w'))))
    by apply Hinv.
  apply (execute_invariant reddit_search classifier clock
           (fun l => Forall (fun a => Str.clean (Reference a)
                                      /\ Str.nul_free (Reference a)) l /\
                     NoDup (map (fun a => Index.baseurl (Reference a)) l))
           (fun s => Str.clean (Praw.url s) /\ Str.nul_free (Praw.url s))
           index) with (w := w) (r := r);
    [|exact Hplat|exact H|split; [exact Hclean|exact Hu]].
  clear. intros api sub w w' r _ Hsub Hstep [IHc IHu].
  apply process_cases in Hstep.
  destruct Hstep as [Hsame|(ls & _ & Hacc & ->)].
  - rewrite Hsame. auto.
  - simpl. split.
    + apply Forall_app. split; [exact IHc|].
      constructor; [exact Hsub|constructor].
    + rewrite map_app. simpl. apply NoDup_snoc; [exact IHu|].
      intros Hin. apply in_map_iff in Hin. destruct Hin as (b & Hkey & Hb).
      destruct (accept_true_inv _ _ _ Hacc) as (_ & _ & Hlike).
      specialize (Hlike b Hb). rewrite <- Hkey in Hlike.
      rewrite Forall_forall in IHc. destruct (IHc b Hb) as [Hc Hn].
      rewrite (like_own_key _ Hc Hn) in Hlike. discriminate.
Qed.

Lemma execute_keeps_keys_unique_witness :
  Index.unique_keys (store Sample.world_after_run).
Proof.
  eapply (execute_keeps_keys_unique Sample.reddit_search Sample.classifier
            Sample.clock Sample.document Sample.world0).
  - intros n sr q so t sub [<-|[<-|[<-|[]]]]; split; reflexivity.
  - constructor.
  - constructor.
  - apply surjective_pairing.
Defined.
